(** * Gordan: a Messenger webhook bot (app.js)

    A shallow embedding of [src/app.js] and the properties of its
    signature check, event dispatch and reply composition.

    Conventions of the embedding.
    - A JavaScript string is a [string]; a character stands for the code
      unit of the same value (0..255), so text outside Latin-1 is not
      represented.  A [Buffer] is a [string] too, one character per byte.
    - A JavaScript number is an IEEE-754 binary64 value, [spec_float] at
      precision 53 and maximal exponent 1024.
    - [undefined] is [None] of an [option].
    - The handlers run in a monad that threads the observable effects
      (calls of the Send API, console lines, the HTTP response, draws of
      [Math.random]) and can [throw]. *)

From Stdlib Require Import ZArith List String Ascii Bool Lia SpecFloat DecimalString.
Import ListNotations.
Local Open Scope string_scope.
Local Open Scope Z_scope.

(* ================================================================== *)
(** * Strings *)

Module Str.

Definition code (c : ascii) : Z := Z.of_N (N_of_ascii c).
Definition chr (z : Z) : ascii := ascii_of_N (Z.to_N z).

Definition chars (s : string) : list ascii := list_ascii_of_string s.
Definition bytes (s : string) : list Z := map code (chars s).

(** [String.prototype.toLowerCase], on the code units 0..255: the letters
    A..Z, and the Latin-1 capitals U+00C0..U+00DE except the sign U+00D7. *)
Definition lower_char (c : ascii) : ascii :=
  let n := code c in
  if ((65 <=? n) && (n <=? 90)) || ((192 <=? n) && (n <=? 222) && negb (n =? 215))
  then chr (n + 32) else c.

Fixpoint toLowerCase (s : string) : string :=
  match s with
  | EmptyString => EmptyString
  | String c r => String (lower_char c) (toLowerCase r)
  end.

(** [s.startsWith(p)] *)
Fixpoint startsWith (s p : string) {struct p} : bool :=
  match p, s with
  | EmptyString, _ => true
  | String _ _, EmptyString => false
  | String a p', String b s' => Ascii.eqb a b && startsWith s' p'
  end.

(** [s.indexOf(w) > -1] *)
Fixpoint includes (s w : string) : bool :=
  startsWith s w ||
  match s with
  | EmptyString => false
  | String _ r => includes r w
  end.

(** [s.split(sep)] for a separator of one character: the pieces between
    the occurrences of [sep], in order; never the empty list. *)
Fixpoint split (sep : ascii) (s : string) : list string :=
  match s with
  | EmptyString => [EmptyString]
  | String c r =>
      if Ascii.eqb c sep then EmptyString :: split sep r
      else match split sep r with
           | [] => [String c EmptyString]
           | p :: ps => String c p :: ps
           end
  end.

(** The character [c] occurs in [s]. *)
Fixpoint mem (c : ascii) (s : string) : bool :=
  match s with
  | EmptyString => false
  | String a r => Ascii.eqb a c || mem c r
  end.

(** A truthy string is a non-empty one. *)
Definition nonempty (s : string) : bool :=
  match s with EmptyString => false | String _ _ => true end.

(** [w] occurs in [s]: the meaning of [includes]. *)
Definition Substring (w s : string) : Prop := exists pre post, s = pre ++ w ++ post.

End Str.

(* ================================================================== *)
(** * crypto: HMAC-SHA1

    [crypto.createHmac('sha1', key).update(buf).digest('hex')] of Node.js:
    SHA-1 (FIPS 180) under the HMAC construction (RFC 2104), printed as
    lower-case hexadecimal digits. *)

Module Crypto.

Definition w32 (x : Z) : Z := Z.land x 4294967295.
Definition add32 (x y : Z) : Z := w32 (x + y).
Definition rotl (n x : Z) : Z :=
  w32 (Z.lor (Z.shiftl x n) (Z.shiftr x (32 - n))).

(** Big-endian bytes of the [n] low bytes of [x]. *)
Fixpoint be_bytes (n : nat) (x : Z) : list Z :=
  match n with
  | O => []
  | S k => Z.land (Z.shiftr x (8 * Z.of_nat k)) 255 :: be_bytes k x
  end.

Fixpoint be_words (l : list Z) : list Z :=
  match l with
  | a :: b :: c :: d :: r =>
      (Z.shiftl a 24 + Z.shiftl b 16 + Z.shiftl c 8 + d) :: be_words r
  | _ => []
  end.

(** The message followed by the bit 1, zeros up to 56 modulo 64 bytes and
    the length in bits on 8 bytes. *)
Definition pad (msg : list Z) : list Z :=
  let len := Z.of_nat (List.length msg) in
  let zeros := Z.to_nat ((55 - len) mod 64) in
  msg ++ [128] ++ repeat 0 zeros ++ be_bytes 8 (8 * len).

Fixpoint chunks (fuel : nat) (n : nat) (l : list Z) : list (list Z) :=
  match fuel, l with
  | O, _ => []
  | _, [] => []
  | S f, _ => firstn n l :: chunks f n (skipn n l)
  end.

(** The schedule is kept most recent word first: [rev_w] holds
    W(t-1), W(t-2), ... *)
Definition next_word (rev_w : list Z) : Z :=
  rotl 1 (Z.lxor (Z.lxor (nth 2 rev_w 0) (nth 7 rev_w 0))
                 (Z.lxor (nth 13 rev_w 0) (nth 15 rev_w 0))).

Fixpoint extend (n : nat) (rev_w : list Z) : list Z :=
  match n with
  | O => rev_w
  | S k => extend k (next_word rev_w :: rev_w)
  end.

Definition schedule (block : list Z) : list Z :=
  rev (extend 64 (rev (be_words block))).

Definition f_k (t : Z) (b c d : Z) : Z * Z :=
  if t <? 20 then (Z.lor (Z.land b c) (Z.land (Z.lxor b 4294967295) d), 1518500249)
  else if t <? 40 then (Z.lxor (Z.lxor b c) d, 1859775393)
  else if t <? 60 then
    (Z.lor (Z.lor (Z.land b c) (Z.land b d)) (Z.land c d), 2400959708)
  else (Z.lxor (Z.lxor b c) d, 3395469782).

Definition state : Type := Z * Z * Z * Z * Z.

Fixpoint rounds (t : Z) (ws : list Z) (st : state) : state :=
  match ws with
  | [] => st
  | w :: ws' =>
      let '(a, b, c, d, e) := st in
      let '(f, k) := f_k t b c d in
      let temp := add32 (add32 (add32 (add32 (rotl 5 a) f) e) k) w in
      rounds (t + 1) ws' (temp, a, rotl 30 b, c, d)
  end.

Definition compress (st : state) (block : list Z) : state :=
  let '(h0, h1, h2, h3, h4) := st in
  let '(a, b, c, d, e) := rounds 0 (schedule block) st in
  (add32 h0 a, add32 h1 b, add32 h2 c, add32 h3 d, add32 h4 e).

Definition init : state :=
  (1732584193, 4023233417, 2562383102, 271733878, 3285377520).

Definition sha1 (msg : list Z) : list Z :=
  let padded := pad msg in
  let '(h0, h1, h2, h3, h4) :=
    fold_left compress (chunks (List.length padded) 64 padded) init in
  be_bytes 4 h0 ++ be_bytes 4 h1 ++ be_bytes 4 h2 ++ be_bytes 4 h3 ++ be_bytes 4 h4.

Definition block_key (key : list Z) : list Z :=
  let k := if (64 <? Z.of_nat (List.length key)) then sha1 key else key in
  k ++ repeat 0 (64 - List.length k)%nat.

Definition hmac_sha1 (key msg : list Z) : list Z :=
  let k := block_key key in
  sha1 (map (Z.lxor 92) k ++ sha1 (map (Z.lxor 54) k ++ msg)).

Definition hex_digit (n : Z) : ascii :=
  if n <? 10 then Str.chr (48 + n) else Str.chr (87 + n).

Fixpoint hex (l : list Z) : string :=
  match l with
  | [] => EmptyString
  | b :: r => String (hex_digit (Z.shiftr b 4)) (String (hex_digit (Z.land b 15)) (hex r))
  end.

(** UTF-8 of a string of code units below 256, as [createHmac] encodes a
    key given as a string. *)
Definition utf8 (s : string) : list Z :=
  flat_map (fun n => if n <? 128 then [n]
                     else [Z.lor 192 (Z.shiftr n 6); Z.lor 128 (Z.land n 63)])
           (Str.bytes s).

(** [crypto.createHmac('sha1', key).update(buf).digest('hex')] *)
Definition createHmac_sha1_hex (key : string) (buf : string) : string :=
  hex (hmac_sha1 (utf8 key) (Str.bytes buf)).

End Crypto.

(* ================================================================== *)
(** * Numbers

    The Number type of JavaScript: IEEE-754 binary64 with rounding to
    nearest, ties to even.  [toString] is Number::toString (the shortest
    digits that read back as the same value) and [ofString] is the
    conversion of a string to a number ([+s], [s * 1]), for strings of code
    units below 256. *)

Module Num.

Definition number : Type := spec_float.
Definition prec : Z := 53.
Definition emax : Z := 1024.

Definition NaN : number := S754_nan.
Definition mul : number -> number -> number := SFmul prec emax.
Definition add : number -> number -> number := SFadd prec emax.
Definition sub : number -> number -> number := SFsub prec emax.

Definition isFinite (x : number) : bool :=
  match x with
  | S754_zero _ | S754_finite _ _ _ => true
  | S754_infinity _ | S754_nan => false
  end.

Definition of_Z (z : Z) : number := binary_normalize prec emax z 0 false.

(** The number nearest to [p / q]: the quotient is cut to 56 or 57 bits
    and a last bit records whether anything was cut off, so that the
    rounding of [binary_normalize] sees on which side of a tie it is. *)
Definition of_ratio (neg : bool) (p q : positive) : number :=
  let e0 := Z.pos (digits2_pos p) - Z.pos (digits2_pos q) - 56 in
  let num := if e0 <? 0 then Z.pos p * 2 ^ (- e0) else Z.pos p in
  let den := if e0 <? 0 then Z.pos q else Z.pos q * 2 ^ e0 in
  let sticky := if num mod den =? 0 then 0 else 1 in
  binary_normalize prec emax (cond_Zopp neg (2 * (num / den) + sticky)) (e0 - 1) neg.

(** The number nearest to [m * 10 ^ e10], for [0 <= m]; the numeric
    literal [0.13] is [dec false 13 (-2)]. *)
Definition dec (neg : bool) (m e10 : Z) : number :=
  match m with
  | Z.pos p =>
      if 0 <=? e10 then of_ratio neg (p * Z.to_pos (10 ^ e10)) 1
      else of_ratio neg p (Z.to_pos (10 ^ (- e10)))
  | _ => S754_zero neg
  end.

(** ** Number::toString *)

Fixpoint ndigits_aux (fuel : nat) (z : Z) : Z :=
  match fuel with
  | O => 0
  | S f => if z <? 10 then 1 else 1 + ndigits_aux f (z / 10)
  end.

(** Number of decimal digits of [z], for [0 < z]. *)
Definition ndigits (z : Z) : Z := ndigits_aux (Z.to_nat (Z.log2 z + 1)) z.

(** The [n] with [10 ^ (n - 1) <= p / q < 10 ^ n]. *)
Definition dec_exponent (p q : Z) : Z :=
  if q <=? p then ndigits (p / q)
  else
    let dt := ndigits (q / p) in
    1 - (if q <=? p * 10 ^ (dt - 1) then dt - 1 else dt).

(** With [k] digits: the [s] for which [s * 10 ^ (n - k)] reads back as
    [x = p / q], nearest to [x] (the even one on a tie), if there is one. *)
Definition digits_at (x : number) (p q n k : Z) : option Z :=
  let sc := n - k in
  let num := if sc <? 0 then p * 10 ^ (- sc) else p in
  let den := if sc <? 0 then q else q * 10 ^ sc in
  let lo := num / den in
  let hi := lo + 1 in
  let back (s : Z) := SFeqb (dec false s sc) x in
  if num mod den =? 0 then Some lo
  else
    match back lo, back hi with
    | true, false => Some lo
    | false, true => Some hi
    | false, false => None
    | true, true =>
        match 2 * num ?= (2 * lo + 1) * den with
        | Lt => Some lo
        | Gt => Some hi
        | Eq => Some (if Z.even lo then lo else hi)
        end
    end.

Fixpoint shortest_from (fuel : nat) (x : number) (p q n k : Z) : Z * Z * Z :=
  match fuel with
  | O => (p, n, k)
  | S f =>
      match digits_at x p q n k with
      | Some s => if s =? 10 ^ k then (1, n + 1, 1) else (s, n, k)
      | None => shortest_from f x p q n (k + 1)
      end
  end.

(** [(s, n, k)] of Number::toString for the positive finite number
    [m * 2 ^ e]; 17 digits always suffice. *)
Definition shortest (m : positive) (e : Z) : Z * Z * Z :=
  let p := if e <? 0 then Z.pos m else Z.pos m * 2 ^ e in
  let q := if e <? 0 then 2 ^ (- e) else 1 in
  shortest_from 17 (S754_finite false m e) p q (dec_exponent p q) 1.

Definition digits_of (z : Z) : string :=
  NilZero.string_of_uint (N.to_uint (Z.to_N z)).

Fixpoint zeros (n : nat) : string :=
  match n with O => EmptyString | S k => String "0" (zeros k) end.

Definition format (snk : Z * Z * Z) : string :=
  let '(s, n, k) := snk in
  let ds := digits_of s in
  let expo := (if 0 <=? n - 1 then "+" else "-") ++ digits_of (Z.abs (n - 1)) in
  if (k <=? n) && (n <=? 21) then ds ++ zeros (Z.to_nat (n - k))
  else if (0 <? n) && (n <=? 21) then
    substring 0 (Z.to_nat n) ds ++ "." ++ substring (Z.to_nat n) (Z.to_nat (k - n)) ds
  else if (-6 <? n) && (n <=? 0) then "0." ++ zeros (Z.to_nat (- n)) ++ ds
  else if k =? 1 then ds ++ "e" ++ expo
  else substring 0 1 ds ++ "." ++ substring 1 (Z.to_nat (k - 1)) ds ++ "e" ++ expo.

Definition toString (x : number) : string :=
  match x with
  | S754_nan => "NaN"
  | S754_zero _ => "0"
  | S754_infinity s => if s then "-Infinity" else "Infinity"
  | S754_finite s m e => (if s then "-" else "") ++ format (shortest m e)
  end.

(** ** StringToNumber *)

Definition is_ws (c : ascii) : bool :=
  let n := Str.code c in
  ((9 <=? n) && (n <=? 13)) || (n =? 32) || (n =? 160).

Fixpoint ltrim (l : list ascii) : list ascii :=
  match l with
  | c :: r => if is_ws c then ltrim r else l
  | [] => []
  end.

Definition trim (l : list ascii) : list ascii := rev (ltrim (rev (ltrim l))).

(** Value of a digit in the given radix, letters in either case. *)
Definition digit_in (radix : Z) (c : ascii) : option Z :=
  let n := Str.code c in
  let v := if (48 <=? n) && (n <=? 57) then n - 48
           else if (97 <=? n) && (n <=? 102) then n - 87
           else if (65 <=? n) && (n <=? 70) then n - 55
           else radix in
  if v <? radix then Some v else None.

(** The longest prefix of digits, as a list of values, and the rest. *)
Fixpoint span_digits (radix : Z) (l : list ascii) : list Z * list ascii :=
  match l with
  | c :: r =>
      match digit_in radix c with
      | Some v => let '(ds, rest) := span_digits radix r in (v :: ds, rest)
      | None => ([], l)
      end
  | [] => ([], [])
  end.

Definition digits_val (radix : Z) (ds : list Z) : Z :=
  fold_left (fun acc d => radix * acc + d) ds 0.

(** [0x..], [0o..], [0b..]: digits only, at least one. *)
Definition parse_radix (radix : Z) (l : list ascii) : number :=
  match span_digits radix l with
  | ((_ :: _) as ds, []) => of_Z (digits_val radix ds)
  | _ => NaN
  end.

(** ExponentPart after its [e]: a sign and at least one digit, to the end. *)
Definition parse_exponent (l : list ascii) : option Z :=
  let neg := match l with "-"%char :: _ => true | _ => false end in
  let l1 := match l with "+"%char :: r | "-"%char :: r => r | _ => l end in
  match span_digits 10 l1 with
  | ((_ :: _) as ds, []) => Some (if neg then - digits_val 10 ds else digits_val 10 ds)
  | _ => None
  end.

(** StrUnsignedDecimalLiteral *)
Definition parse_unsigned (neg : bool) (l : list ascii) : number :=
  if String.eqb (string_of_list_ascii l) "Infinity" then S754_infinity neg
  else
    let '(ip, r1) := span_digits 10 l in
    let '(fp, r2) := match r1 with
                     | "."%char :: r => span_digits 10 r
                     | _ => ([], r1)
                     end in
    let ex := match r2 with
              | [] => Some 0
              | "e"%char :: r | "E"%char :: r => parse_exponent r
              | _ => None
              end in
    match (ip ++ fp)%list, ex with
    | (_ :: _) as ds, Some e10 => dec neg (digits_val 10 ds) (e10 - Z.of_nat (List.length fp))
    | _, _ => NaN
    end.

Definition ofString (s : string) : number :=
  match trim (Str.chars s) with
  | [] => S754_zero false
  | "0"%char :: "x"%char :: r | "0"%char :: "X"%char :: r => parse_radix 16 r
  | "0"%char :: "o"%char :: r | "0"%char :: "O"%char :: r => parse_radix 8 r
  | "0"%char :: "b"%char :: r | "0"%char :: "B"%char :: r => parse_radix 2 r
  | "+"%char :: r => parse_unsigned false r
  | "-"%char :: r => parse_unsigned true r
  | l => parse_unsigned false l
  end.

(** ToNumber of a value that is a string or undefined. *)
Definition ToNumber (v : option string) : number :=
  match v with
  | Some s => ofString s
  | None => NaN
  end.

(** ** Math *)

(** [Math.floor] *)
Definition floor (x : number) : number :=
  match x with
  | S754_finite s m e =>
      if 0 <=? e then x
      else if s then of_Z (- ((Z.pos m + 2 ^ (- e) - 1) / 2 ^ (- e)))
      else of_Z (Z.pos m / 2 ^ (- e))
  | _ => x
  end.

(** [Math.round]: the nearest integer, the larger one on a tie; a result
    of zero keeps the sign of the argument. *)
Definition round (x : number) : number :=
  match x with
  | S754_finite s m e =>
      if 0 <=? e then x
      else
        let one := 2 ^ (- e) in
        if s then
          if 2 * Z.pos m <=? one then S754_zero true
          else of_Z (- ((2 * Z.pos m - one + 2 * one - 1) / (2 * one)))
        else of_Z ((2 * Z.pos m + one) / (2 * one))
  | _ => x
  end.

End Num.

(* ================================================================== *)
(** * lodash

    The functions of lodash 4 that app.js calls, at the types it calls
    them with. *)

Module Lodash.

(** [_.toString] of a number: as [String(x)], but the negative zero keeps
    its sign. *)
Definition toString (x : Num.number) : string :=
  match x with
  | S754_zero true => "-0"
  | _ => Num.toString x
  end.

(** [_.startsWith(string, target)] *)
Definition startsWith (s target : string) : bool := Str.startsWith s target.

(** [_.split(string, separator)], the separator one character. *)
Definition split (s : string) (separator : ascii) : list string :=
  Str.split separator s.

(** [_.toLower(string)] *)
Definition toLower (s : string) : string := Str.toLowerCase s.

(** [_.includes(string, value)] *)
Definition includes (s value : string) : bool := Str.includes s value.

(** [_.some(array, predicate)] *)
Definition some {A : Type} (array : list A) (predicate : A -> bool) : bool :=
  existsb predicate array.

(** [pair[i]] of a pair made by splitting a string that ends in [e]: there
    are always two pieces. *)
Definition piece (pair : list string) (i : nat) : string := nth i pair "".

(** [createRound(methodName)]: shift the decimal point through the
    exponent of the printed number, apply [func], shift back.
<<
    number = toNumber(number);
    precision = precision == null ? 0 : nativeMin(toInteger(precision), 292);
    if (precision && nativeIsFinite(number)) {
      var pair = (toString(number) + 'e').split('e'),
          value = func(pair[0] + 'e' + (+pair[1] + precision));
      pair = (toString(value) + 'e').split('e');
      return +(pair[0] + 'e' + (+pair[1] - precision));
    }
    return func(number);
>> *)
Definition createRound (func : Num.number -> Num.number)
    (number : Num.number) (precision : Z) : Num.number :=
  let precision := Z.min precision 292 in
  if negb (precision =? 0) && Num.isFinite number then
    let pair := Str.split "e" (toString number ++ "e") in
    let value :=
      func (Num.ofString
              (piece pair 0 ++ "e" ++
               Num.toString (Num.add (Num.ofString (piece pair 1)) (Num.of_Z precision)))) in
    let pair := Str.split "e" (toString value ++ "e") in
    Num.ofString
      (piece pair 0 ++ "e" ++
       Num.toString (Num.sub (Num.ofString (piece pair 1)) (Num.of_Z precision)))
  else func number.

(** [_.round(number, precision)] *)
Definition round : Num.number -> Z -> Num.number := createRound Num.round.

End Lodash.

(* ================================================================== *)
(** * Truthiness *)

Class Truthy (A : Type) : Type := truthy : A -> bool.

#[export] Instance Truthy_bool : Truthy bool := fun b => b.
#[export] Instance Truthy_string : Truthy string := Str.nonempty.
#[export] Instance Truthy_option {A : Type} `{Truthy A} : Truthy (option A) :=
  fun o => match o with Some a => truthy a | None => false end.

(** [a == b] and [a != b] where [a] is a string or undefined and [b] a
    string; [a === b] is the same at these types. *)
Definition loose_eq (a : option string) (b : string) : bool :=
  match a with
  | Some s => String.eqb s b
  | None => false
  end.

Definition loose_neq (a : option string) (b : string) : bool := negb (loose_eq a b).
Definition strict_eq (a : option string) (b : string) : bool := loose_eq a b.

(* ================================================================== *)
(** * Inbound data: the webhook callback *)

Record Attachment : Type := { attachment_type : string }.
Record QuickReply : Type := { quick_reply_payload : string }.

Record Message : Type := {
  is_echo : option bool;
  mid : option string;
  app_id : option Z;
  metadata : option string;
  message_text : option string;
  attachments : option (list Attachment);
  quick_reply : option QuickReply
}.

Record Optin : Type := { ref : option string }.
Record Postback : Type := { postback_payload : option string }.

(** One messaging event whose sender and recipient are present:
    [event.sender.id], [event.recipient.id], [event.timestamp] and the
    fields that name its kind.  An event as it is decoded, where they can
    be missing, is a [DecodedEvent] below. *)
Record MessagingEvent : Type := {
  sender_id : string;
  recipient_id : string;
  timestamp : Z;
  optin : option Optin;
  message : option Message;
  postback : option Postback
}.

Record PageEntry : Type := {
  page_id : string;
  time : Z;
  messaging : list MessagingEvent
}.

(** [req.body] of a POST, as decoded by body-parser. *)
Record WebhookBody : Type := {
  object : option string;
  entry : list PageEntry
}.

(** A POST request: the signature header, the raw bytes that were received
    and the body decoded from them. *)
Record PostRequest : Type := {
  x_hub_signature : option string;
  rawBody : string;
  body : WebhookBody
}.

(** [req.query] of a GET. *)
Record Query : Type := {
  hub_mode : option string;
  hub_verify_token : option string;
  hub_challenge : option string
}.

(** Objects are truthy. *)
#[export] Instance Truthy_QuickReply : Truthy QuickReply := fun _ => true.
#[export] Instance Truthy_Message : Truthy Message := fun _ => true.
#[export] Instance Truthy_Optin : Truthy Optin := fun _ => true.
#[export] Instance Truthy_Postback : Truthy Postback := fun _ => true.

(* ================================================================== *)
(** * Outbound data: the bodies given to the Send API *)

Inductive Button : Type :=
| web_url (url title : string)
| postback_button (title payload : string).

Record Element : Type := {
  title : string;
  subtitle : string;
  item_url : option string;
  image_url : string;
  buttons : list Button
}.

Record ReceiptElement : Type := {
  receipt_title : option string;
  quantity : Z;
  price : Num.number;
  element_currency : string;
  receipt_image_url : option string
}.

Record Address : Type := {
  street_1 : string;
  street_2 : string;
  city : string;
  postal_code : string;
  state : string;
  country : string
}.

Record Summary : Type := {
  subtotal : Num.number;
  shipping_cost : Num.number;
  total_tax : Num.number;
  total_cost : Num.number
}.

Record Receipt : Type := {
  recipient_name : string;
  order_number : string;
  currency : string;
  payment_method : string;
  receipt_elements : list ReceiptElement;
  address : Address;
  summary : Summary
}.

(** [message.attachment.payload] of a template; [elements] of a generic
    template is undefined when the table has no entry. *)
Inductive Template : Type :=
| generic (elements : option (list Element))
| receipt (r : Receipt).

Inductive MessageBody : Type :=
| text (t : string)
| template (payload : Template).

(** [messageData]: [{recipient: {id}, message}]. *)
Record MessageData : Type := {
  recipient : string;
  message_body : MessageBody
}.

(* ================================================================== *)
(** * Effects *)

Inductive ConsoleLine : Type :=
| log (first : string)
| log_json (m : option Message)
| error (first : string).

Record Response : Type := { status : Z; response_body : option string }.

Inductive Exn : Type :=
| Error (msg : string)
| TypeError (msg : string).

(** What a run leaves behind: the bodies handed to [callSendAPI], the
    console, the HTTP response if one was sent, and how many times
    [Math.random] was drawn.  A console line keeps the first argument of
    the call, the format; the values printed into it are left out. *)
Record World : Type := {
  sent : list MessageData;
  console : list ConsoleLine;
  response : option Response;
  draws : nat
}.

Definition World0 : World :=
  {| sent := []; console := []; response := None; draws := O |}.

Inductive Completion (A : Type) : Type :=
| Normal (a : A)
| Throw (e : Exn).
Arguments Normal {A} a.
Arguments Throw {A} e.

Definition M (A : Type) : Type := World -> Completion A * World.

Definition ret {A : Type} (a : A) : M A := fun w => (Normal a, w).

Definition bind {A B : Type} (c : M A) (k : A -> M B) : M B :=
  fun w =>
    match c w with
    | (Normal a, w') => k a w'
    | (Throw e, w') => (Throw e, w')
    end.

Definition throw {A : Type} (e : Exn) : M A := fun w => (Throw e, w).

Declare Scope js_scope.
Delimit Scope js_scope with js.
Notation "x <- c ;; k" := (bind c (fun x => k))
  (at level 61, c at next level, right associativity) : js_scope.
Notation "c ;; k" := (bind c (fun _ => k))
  (at level 61, right associativity) : js_scope.
Local Open Scope js_scope.

(** [array.forEach(f)] *)
Fixpoint forEach {A : Type} (array : list A) (f : A -> M unit) : M unit :=
  match array with
  | [] => ret tt
  | a :: rest => f a ;; forEach rest f
  end.

Definition console_log (first : string) : M unit :=
  fun w => (Normal tt, {| sent := sent w; console := console w ++ [log first];
                          response := response w; draws := draws w |}).

Definition console_log_json (m : option Message) : M unit :=
  fun w => (Normal tt, {| sent := sent w; console := console w ++ [log_json m];
                          response := response w; draws := draws w |}).

Definition console_error (first : string) : M unit :=
  fun w => (Normal tt, {| sent := sent w; console := console w ++ [error first];
                          response := response w; draws := draws w |}).

(** The reason phrase [res.sendStatus] writes as the body. *)
Definition status_text (code : Z) : string :=
  if code =? 200 then "OK" else if code =? 403 then "Forbidden" else Num.digits_of code.

(** [res.status(code).send(body)] *)
Definition res_send (code : Z) (b : option string) : M unit :=
  fun w => (Normal tt, {| sent := sent w; console := console w;
                          response := Some {| status := code; response_body := b |};
                          draws := draws w |}).

(** [res.sendStatus(code)] *)
Definition res_sendStatus (code : Z) : M unit := res_send code (Some (status_text code)).

(* ================================================================== *)
(** * app.js *)

Section App.

(** The configuration read from the environment at startup, and the
    sequence of values [Math.random] returns. *)
Variable APP_SECRET : string.
Variable VALIDATION_TOKEN : string.
Variable SERVER_URL : string.
Variable Math_random : nat -> Num.number.

(** [Math.random()] *)
Definition random : M Num.number :=
  fun w => (Normal (Math_random (draws w)),
            {| sent := sent w; console := console w;
               response := response w; draws := S (draws w) |}).

(** [callSendAPI(messageData)]: the body is posted to the Send API; what
    the callback prints when the answer arrives is not part of the run
    of a handler. *)
Definition callSendAPI (messageData : MessageData) : M unit :=
  fun w => (Normal tt, {| sent := sent w ++ [messageData]; console := console w;
                          response := response w; draws := draws w |}).

Definition sendTextMessage (recipientId messageText : string) : M unit :=
  callSendAPI {| recipient := recipientId; message_body := text messageText |}.

(** [app.get('/webhook', ...)] *)
Definition get_webhook (query : Query) : M unit :=
  if strict_eq (hub_mode query) "subscribe" &&
     strict_eq (hub_verify_token query) VALIDATION_TOKEN
  then
    console_log "Validating webhook" ;;
    res_send 200 (hub_challenge query)
  else
    console_error "Failed validation. Make sure the validation tokens match." ;;
    res_sendStatus 403.

Definition verifyRequestSignature (signature : option string) (buf : string) : M unit :=
  if negb (truthy signature) then
    console_error "Couldn't validate the signature."
  else
    let elements := match signature with
                    | Some s => Str.split "=" s
                    | None => []
                    end in
    let method := nth_error elements 0 in
    let signatureHash := nth_error elements 1 in
    let expectedHash := Crypto.createHmac_sha1_hex APP_SECRET buf in
    if loose_neq signatureHash expectedHash then
      throw (Error "Couldn't validate the request signature.")
    else ret tt.

Definition receivedAuthentication (event : MessagingEvent) : M unit :=
  let senderID := sender_id event in
  match optin event with
  | None => throw (TypeError "Cannot read property 'ref' of undefined")
  | Some o =>
      let passThroughParam := ref o in
      console_log "Received authentication for user %d and page %d with pass through param '%s' at %d" ;;
      sendTextMessage senderID "Authentication successful"
  end.

Definition foodKeywords : list string :=
  ["hungry"; "food"; "meal"; "snack"; "cuisine"; "drink"; "chow";
   "breakfast"; "lunch"; "dinner"; "brunch"; "buffet"].

Definition sendRestaurantRecommendation (recipientId : string) : M unit :=
  let messageData :=
    {| recipient := recipientId;
       message_body := template (generic (Some [
         {| title := "Campus Pizza";
            subtitle := "Call us for all your pizza needs!";
            item_url := Some "http://www.campuspizza.ca/";
            image_url := SERVER_URL ++ "/assets/campus_pizza.png";
            buttons := [web_url "http://www.campuspizza.ca/" "Open Web URL";
                        postback_button "I want this!" "restaurant_campus_pizza"] |};
         {| title := "Foodie Fruitie";
            subtitle := "Ramen X Juice X Sushi";
            item_url := Some "http://foodiefruitie.com/";
            image_url := SERVER_URL ++ "/assets/foodie_fruitie.png";
            buttons := [web_url "http://foodiefruitie.com/" "Open Web URL";
                        postback_button "I want this!" "restaurant_foodie_fruitie"] |};
         {| title := "Williams Fresh Cafe";
            subtitle := "Canada's leading fast casual fresh food cafe";
            item_url := Some "http://williamsfreshcafe.com/";
            image_url := SERVER_URL ++ "/assets/williams.png";
            buttons := [web_url "http://williamsfreshcafe.com/" "Open Web URL";
                        postback_button "I want this!" "restaurant_williams"] |}])) |} in
  callSendAPI messageData.

Definition receivedMessage (event : MessagingEvent) : M unit :=
  let senderID := sender_id event in
  console_log "Received message for user %d and page %d at %d with message:" ;;
  console_log_json (message event) ;;
  match message event with
  | None => throw (TypeError "Cannot read property 'is_echo' of undefined")
  | Some message =>
      let isEcho := is_echo message in
      let messageText := message_text message in
      let messageAttachments := attachments message in
      let quickReply := quick_reply message in
      if truthy isEcho then
        console_log "Received echo for message %s and app %d with metadata %s"
      else if truthy quickReply then
        console_log "Quick reply for message %s with payload %s" ;;
        sendTextMessage senderID "Quick reply tapped"
      else
        match messageText with
        | Some messageText =>
            if truthy messageText then
              if Lodash.some foodKeywords
                   (fun word => Lodash.includes (Lodash.toLower messageText) word)
              then sendRestaurantRecommendation senderID
              else sendTextMessage senderID "I'm not sure what you mean"
            else ret tt
        | None => ret tt
        end
  end.

(** One entry of the table [recommendations]: a dish of a restaurant. *)
Definition dish (name cost asset : string) : Element :=
  {| title := name;
     subtitle := cost;
     item_url := None;
     image_url := SERVER_URL ++ asset;
     buttons := [postback_button "I want this!"
                   ("item|" ++ name ++ "|" ++ cost ++ "|" ++ SERVER_URL ++ asset)] |}.

Definition recommendations : list (string * list Element) :=
  [("restaurant_campus_pizza",
    [dish "Vegetarian Pizza" "4.99" "/assets/vegetarian_pizza.png";
     dish "Cheese Pizza" "4.99" "/assets/cheese_pizza.png";
     dish "Pepperoni Pizza" "4.99" "/assets/pepperoni_pizza.png"]);
   ("restaurant_foodie_fruitie",
    [dish "Teriyaki Salmon" "9.99" "/assets/teriyaki_salmon.png";
     dish "BBQ Pork Fried Rice" "9.99" "/assets/pork_fried_rice.png";
     dish "Curry Ramen" "9.99" "/assets/curry_ramen.png"]);
   ("restaurant_williams",
    [dish "Chicken Quesadilla" "6.99" "/assets/chicken_quesadilla.png";
     dish "William's Big Breakfast" "9.99" "/assets/big_breakfast.png";
     dish "Mac'n'Cheese" "4.99" "/assets/mac_cheese.png"])].

(** [table[key]] on an object literal used as a table.  The properties
    every object inherits are not modelled: the one caller looks up keys
    that start with [restaurant], and no inherited name does. *)
Fixpoint lookup {A : Type} (table : list (string * A)) (key : string) : option A :=
  match table with
  | [] => None
  | (k, v) :: rest => if String.eqb k key then Some v else lookup rest key
  end.

Definition sendRecommendationsForRestaurant (recipientId restaurant : string) : M unit :=
  let messageData :=
    {| recipient := recipientId;
       message_body := template (generic (lookup recommendations restaurant)) |} in
  callSendAPI messageData.

(** [messageData] of [sendOrderReceipt]; [r] is the value drawn from
    [Math.random] for the order number. *)
Definition orderReceipt (recipientId : string) (r : Num.number)
    (food price img_url : option string) : MessageData :=
  let receiptId := "order" ++ Num.toString (Num.floor (Num.mul r (Num.of_Z 1000))) in
  let price := Num.ToNumber price in
  {| recipient := recipientId;
     message_body := template (receipt
       {| recipient_name := "David Dong";
          order_number := receiptId;
          currency := "USD";
          payment_method := "Visa 1234";
          receipt_elements :=
            [{| receipt_title := food;
                quantity := 1;
                price := Lodash.round (Num.mul price (Num.of_Z 1)) 2;
                element_currency := "CAD";
                receipt_image_url := img_url |}];
          address :=
            {| street_1 := "208 Sunview St";
               street_2 := "";
               city := "Waterloo";
               postal_code := "A1A 1A1";
               state := "ON";
               country := "CA" |};
          summary :=
            {| subtotal := Lodash.round (Num.mul price (Num.of_Z 1)) 2;
               shipping_cost := Num.of_Z 0;
               total_tax := Lodash.round (Num.mul price (Num.dec false 13 (-2))) 2;
               total_cost := Lodash.round (Num.mul price (Num.dec false 113 (-2))) 2 |} |}) |}.

Definition sendOrderReceipt (recipientId : string) (food price img_url : option string)
  : M unit :=
  r <- random ;;
  callSendAPI (orderReceipt recipientId r food price img_url).

Definition receivedPostback (event : MessagingEvent) : M unit :=
  let senderID := sender_id event in
  match postback event with
  | None => throw (TypeError "Cannot read property 'payload' of undefined")
  | Some p =>
      match postback_payload p with
      | Some payload =>
          if truthy payload then
            if Lodash.startsWith payload "restaurant" then
              sendTextMessage senderID "Want any of these?" ;;
              sendRecommendationsForRestaurant senderID payload
            else if Lodash.startsWith payload "item" then
              let payloadData := Lodash.split payload "|" in
              let food := nth_error payloadData 1 in
              let price := nth_error payloadData 2 in
              let img_url := nth_error payloadData 3 in
              sendTextMessage senderID "We got your order!" ;;
              sendOrderReceipt senderID food price img_url
            else
              sendTextMessage senderID "Sorry, we couldn't understand your message"
          else ret tt
      | None => ret tt
      end ;;
      console_log "Received postback for user %d and page %d with payload '%s' at %d"
  end.

(** The function given to the inner [forEach] of the POST handler. *)
Definition dispatch (messagingEvent : MessagingEvent) : M unit :=
  if truthy (optin messagingEvent) then receivedAuthentication messagingEvent
  else if truthy (message messagingEvent) then receivedMessage messagingEvent
  else if truthy (postback messagingEvent) then receivedPostback messagingEvent
  else console_log "Webhook received unknown messagingEvent: ".

(** [app.post('/webhook', ...)] *)
Definition post_webhook (data : WebhookBody) : M unit :=
  if loose_eq (object data) "page" then
    forEach (entry data)
      (fun pageEntry => forEach (messaging pageEntry) dispatch) ;;
    res_sendStatus 200
  else ret tt.

(** A POST to /webhook goes through [bodyParser.json({ verify:
    verifyRequestSignature })] first: the check runs on the raw bytes, and
    when it throws the request is handed to the error handling of the
    framework and never reaches the route. *)
Definition POST (req : PostRequest) : M unit :=
  verifyRequestSignature (x_hub_signature req) (rawBody req) ;;
  post_webhook (body req).

End App.

(* ================================================================== *)
(** * callSendAPI: the callback

    The function [callSendAPI] hands to [request]; it runs when the answer
    of the Send API arrives, or when the call failed, with the error, the
    response and the decoded body of the answer. *)

Record SendResponse : Type := { statusCode : Z; statusMessage : string }.

(** [body] of the answer: [{recipient_id, message_id}], or [{error}]. *)
Record SendResult : Type := {
  result_recipient_id : option string;
  result_message_id : option string;
  result_error : option string
}.

(** An error object is truthy. *)
#[export] Instance Truthy_Exn : Truthy Exn := fun _ => true.

(** [o.name] where [o] may be undefined; the text of the TypeError is the
    one of the Node.js releases of the time and differs in later ones. *)
Definition property {A B : Type} (name : string) (o : option A) (get : A -> B) : M B :=
  match o with
  | Some a => ret (get a)
  | None => throw (TypeError ("Cannot read property '" ++ name ++ "' of undefined"))
  end.

Definition callSendAPI_callback
    (error : option Exn) (response : option SendResponse) (body : option SendResult)
  : M unit :=
  ok <- (if negb (truthy error)
         then code <- property "statusCode" response statusCode ;; ret (code =? 200)
         else ret false) ;;
  if (ok : bool) then
    recipientId <- property "recipient_id" body result_recipient_id ;;
    messageId <- property "message_id" body result_message_id ;;
    if truthy messageId then
      console_log "Successfully sent message with id %s to recipient %s"
    else
      console_log "Successfully called Send API for recipient %s"
  else
    code <- property "statusCode" response statusCode ;;
    phrase <- property "statusMessage" response statusMessage ;;
    err <- property "error" body result_error ;;
    console_error "Failed calling Send API".

(* ================================================================== *)
(** * The body as it is decoded

    [MessagingEvent], [PageEntry] and [WebhookBody] describe a callback
    in which every entry has its events and every event its sender and its
    recipient.  Decoding the JSON of a request promises none of this: the
    records below are the same values with every part that can be missing
    optional, and the functions below are the route of POST /webhook and
    the handlers on them, throwing the TypeError that JavaScript throws
    when a property of [undefined] or [null] is read.  In an array, [None]
    is the element [null]. *)

(** [event.sender], [event.recipient]: an object with its [id]. *)
Record Party : Type := { party_id : string }.

Record DecodedEvent : Type := {
  event_sender : option Party;
  event_recipient : option Party;
  event_timestamp : option Z;
  event_optin : option Optin;
  event_message : option Message;
  event_postback : option Postback
}.

Record DecodedEntry : Type := {
  entry_id : option string;
  entry_time : option Z;
  entry_messaging : option (list (option DecodedEvent))
}.

Record DecodedBody : Type := {
  body_object : option string;
  body_entry : option (list (option DecodedEntry))
}.

Record DecodedRequest : Type := {
  header_signature : option string;
  request_raw : string;
  request_body : DecodedBody
}.

(** The event once [event.sender.id] and [event.recipient.id] have been
    read.  The timestamp only goes into console lines, whose values are
    left out; a missing one is given as 0. *)
Definition with_parties (event : DecodedEvent) (senderID recipientID : string)
  : MessagingEvent :=
  {| sender_id := senderID;
     recipient_id := recipientID;
     timestamp := match event_timestamp event with Some t => t | None => 0 end;
     optin := event_optin event;
     message := event_message event;
     postback := event_postback event |}.

(** Entering a handler with a decoded event.  The first two lines of
    [receivedAuthentication], [receivedMessage] and [receivedPostback] are
<<
      var senderID = event.sender.id;
      var recipientID = event.recipient.id;
>>
    and throw when the sender or the recipient is missing, before anything
    else is done; the rest of the handler runs as on [MessagingEvent]. *)
Definition entering (handler : MessagingEvent -> M unit) (event : DecodedEvent) : M unit :=
  senderID <- property "id" (event_sender event) party_id ;;
  recipientID <- property "id" (event_recipient event) party_id ;;
  handler (with_parties event senderID recipientID).

Section Decoded.

Variable APP_SECRET : string.
Variable SERVER_URL : string.
Variable Math_random : nat -> Num.number.

(** The function given to the inner [forEach] of the POST handler, on one
    element of [pageEntry.messaging]. *)
Definition dispatch_decoded (messagingEvent : option DecodedEvent) : M unit :=
  match messagingEvent with
  | None => throw (TypeError "Cannot read property 'optin' of null")
  | Some event =>
      if truthy (event_optin event) then entering receivedAuthentication event
      else if truthy (event_message event) then
        entering (receivedMessage SERVER_URL) event
      else if truthy (event_postback event) then
        entering (receivedPostback SERVER_URL Math_random) event
      else console_log "Webhook received unknown messagingEvent: "
  end.

(** The function given to the outer [forEach], on one element of
    [data.entry]: [pageEntry.id] and [pageEntry.time] are read, then
    [pageEntry.messaging.forEach] is called. *)
Definition entry_decoded (pageEntry : option DecodedEntry) : M unit :=
  match pageEntry with
  | None => throw (TypeError "Cannot read property 'id' of null")
  | Some e =>
      events <- property "forEach" (entry_messaging e) (fun l => l) ;;
      forEach events dispatch_decoded
  end.

(** [app.post('/webhook', ...)] on a decoded body. *)
Definition post_webhook_decoded (data : DecodedBody) : M unit :=
  if loose_eq (body_object data) "page" then
    entries <- property "forEach" (body_entry data) (fun l => l) ;;
    forEach entries entry_decoded ;;
    res_sendStatus 200
  else ret tt.

(** A POST to /webhook, through the check of the signature, on a decoded
    request. *)
Definition POST_decoded (req : DecodedRequest) : M unit :=
  verifyRequestSignature APP_SECRET (header_signature req) (request_raw req) ;;
  post_webhook_decoded (request_body req).

End Decoded.

(** A callback in which nothing is missing, as it is decoded. *)
Definition decoded_event (event : MessagingEvent) : DecodedEvent :=
  {| event_sender := Some {| party_id := sender_id event |};
     event_recipient := Some {| party_id := recipient_id event |};
     event_timestamp := Some (timestamp event);
     event_optin := optin event;
     event_message := message event;
     event_postback := postback event |}.

Definition decoded_entry (pageEntry : PageEntry) : DecodedEntry :=
  {| entry_id := Some (page_id pageEntry);
     entry_time := Some (time pageEntry);
     entry_messaging := Some (map (fun e => Some (decoded_event e)) (messaging pageEntry)) |}.

Definition decoded_body (data : WebhookBody) : DecodedBody :=
  {| body_object := object data;
     body_entry := Some (map (fun e => Some (decoded_entry e)) (entry data)) |}.

Definition decoded_request (req : PostRequest) : DecodedRequest :=
  {| header_signature := x_hub_signature req;
     request_raw := rawBody req;
     request_body := decoded_body (body req) |}.

(* ================================================================== *)
(** * Vocabulary of the properties, and sample requests *)

(** The reply is the carousel of the three restaurants. *)
Definition three_restaurants (b : MessageBody) : Prop :=
  exists els, b = template (generic (Some els)) /\
              map title els = ["Campus Pizza"; "Foodie Fruitie"; "Williams Fresh Cafe"].

(** From every world, [c] returns, calls the Send API at most [n] times, each
    time for a recipient that [allowed] admits, keeps the calls made before,
    and leaves the HTTP response alone. *)
Definition Replies {A : Type} (allowed : string -> Prop) (n : nat) (c : M A) : Prop :=
  forall w, exists a w' l,
    c w = (Normal a, w') /\
    sent w' = (sent w ++ l)%list /\
    (List.length l <= n)%nat /\
    Forall (fun m => allowed (recipient m)) l /\
    response w' = response w.

(** An event the handlers can enter: it is there, and when it is of one of
    the three kinds it has its sender and its recipient. *)
Definition event_ok (item : option DecodedEvent) : bool :=
  match item with
  | None => false
  | Some ev =>
      if truthy (event_optin ev) || truthy (event_message ev) || truthy (event_postback ev)
      then match event_sender ev, event_recipient ev with
           | Some _, Some _ => true
           | _, _ => false
           end
      else true
  end.

Definition entry_ok (item : option DecodedEntry) : bool :=
  match item with
  | Some e =>
      match entry_messaging e with
      | Some events => forallb event_ok events
      | None => false
      end
  | None => false
  end.

(** A body all of whose entries and events can be handled. *)
Definition body_ok (data : DecodedBody) : bool :=
  match body_entry data with
  | Some entries => forallb entry_ok entries
  | None => false
  end.

(** The elements of all the arrays of events of a body, entry after entry. *)
Definition events_of (data : DecodedBody) : list (option DecodedEvent) :=
  match body_entry data with
  | Some entries =>
      flat_map (fun item => match item with
                            | Some e => match entry_messaging e with
                                        | Some events => events
                                        | None => []
                                        end
                            | None => []
                            end) entries
  | None => []
  end.

(** The id of the sender of an element, when there is one. *)
Definition sender_of (item : option DecodedEvent) : option string :=
  match item with
  | Some ev => option_map party_id (event_sender ev)
  | None => None
  end.

(** As [Replies], for a run that may throw: from every world, [c] calls the
    Send API at most [n] times, each time for a recipient that [allowed]
    admits, keeps the calls made before and leaves the HTTP response alone;
    it returns when [good] is true and throws a TypeError when it is not. *)
Definition Attempts (allowed : string -> Prop) (n : nat) (good : bool) (c : M unit) : Prop :=
  forall w, exists r w' l,
    c w = (r, w') /\
    sent w' = (sent w ++ l)%list /\
    (List.length l <= n)%nat /\
    Forall (fun m => allowed (recipient m)) l /\
    response w' = response w /\
    (if good then r = Normal tt else exists msg, r = Throw (TypeError msg)).

(** The characters of a digest printed by [digest('hex')]. *)
Definition hex_digits : string := "0123456789abcdef".

(** A messaging event of a user, as the platform delivers it. *)
Definition sample_event (m : option Message) (p : option Postback) : MessagingEvent :=
  {| sender_id := "1254459154682919";
     recipient_id := "682919125445915";
     timestamp := 1458692752478;
     optin := None;
     message := m;
     postback := p |}.

Definition sample_text (t : string) : Message :=
  {| is_echo := None;
     mid := Some "mid.1457764197618:41d102a3e1ae206a38";
     app_id := None;
     metadata := None;
     message_text := Some t;
     attachments := None;
     quick_reply := None |}.

(** The echo of a message the page sent, with everything a message can
    carry. *)
Definition sample_echo : Message :=
  {| is_echo := Some true;
     mid := Some "mid.1457764197618:41d102a3e1ae206a38";
     app_id := Some 1517776481860111;
     metadata := Some "DEVELOPER_DEFINED_METADATA";
     message_text := Some "I am hungry";
     attachments := Some [{| attachment_type := "image" |}];
     quick_reply := Some {| quick_reply_payload := "DEVELOPER_DEFINED_PAYLOAD" |} |}.

Definition sample_postback (payload : string) : MessagingEvent :=
  sample_event None (Some {| postback_payload := Some payload |}).

(** The same, as they are decoded. *)
Definition sample_decoded (m : option Message) (p : option Postback) : DecodedEvent :=
  {| event_sender := Some {| party_id := "1254459154682919" |};
     event_recipient := Some {| party_id := "682919125445915" |};
     event_timestamp := Some 1458692752478;
     event_optin := None;
     event_message := m;
     event_postback := p |}.


(** A page body of one entry with the given events. *)
Definition sample_page (events : list (option DecodedEvent)) : DecodedBody :=
  {| body_object := Some "page";
     body_entry := Some [Some {| entry_id := Some "682919125445915";
                                 entry_time := Some 1458692752478;
                                 entry_messaging := Some events |}] |}.

Definition sample_url : string := "https://bot.example".

(** A source of random numbers that always draws 0.5. *)
Definition sample_random : nat -> Num.number := fun _ => Num.dec false 5 (-1).

(* ================================================================== *)
(** * The models of the libraries on known values *)

Example sha1_abc :
  Crypto.hex (Crypto.sha1 (Str.bytes "abc")) = "a9993e364706816aba3e25717850c26c9cd0d89d".
Proof. vm_compute. reflexivity. Qed.

Example sha1_empty :
  Crypto.hex (Crypto.sha1 []) = "da39a3ee5e6b4b0d3255bfef95601890afd80709".
Proof. vm_compute. reflexivity. Qed.

Example sha1_two_blocks :
  Crypto.hex (Crypto.sha1 (Str.bytes "abcdbcdecdefdefgefghfghighijhijkijkljklmklmnlmnomnopnopq"))
  = "84983e441c3bd26ebaae4aa1f95129e5e54670f1".
Proof. vm_compute. reflexivity. Qed.

Example hmac_sha1_fox :
  Crypto.createHmac_sha1_hex "key" "The quick brown fox jumps over the lazy dog"
  = "de7c9b85b8b78aa6bc8a7a36f70a90701c9db4d9".
Proof. vm_compute. reflexivity. Qed.

Example hmac_sha1_empty :
  Crypto.createHmac_sha1_hex "" "" = "fbdb1d1b18aa6c08324b7d64b71fb76370690e1d".
Proof. vm_compute. reflexivity. Qed.

Example toString_values :
  map Num.toString
    [Num.ofString "4.99"; Num.ofString "1e21"; Num.ofString "1e-7"; Num.ofString "0.000001";
     Num.ofString "123456789012345680000"; Num.ofString "5e-324"; Num.ofString "-1.5";
     Num.ofString "0x1F"; Num.ofString " 12 "; Num.ofString ".5"; Num.ofString "abc";
     Num.ofString ""; Num.ofString "1e400"; Num.ofString "9007199254740993";
     Num.add (Num.ofString "0.1") (Num.ofString "0.2")]
  = ["4.99"; "1e+21"; "1e-7"; "0.000001"; "123456789012345680000"; "5e-324"; "-1.5";
     "31"; "12"; "0.5"; "NaN"; "0"; "Infinity"; "9007199254740992";
     "0.30000000000000004"].
Proof. vm_compute. reflexivity. Qed.

Example Math_round_values :
  map (fun s => Lodash.toString (Num.round (Num.ofString s)))
    ["2.5"; "-2.5"; "-0.5"; "-0.4"; "0.4"; "0.5"; "0.49999999999999994"; "-0.6"; "564.87"]
  = ["3"; "-2"; "-0"; "-0"; "0"; "1"; "0"; "-1"; "565"].
Proof. vm_compute. reflexivity. Qed.

(** The receipts of the three prices of the table. *)
Example catalog_amounts :
  map (fun cost =>
         let price := Num.ofString cost in
         map Num.toString
           [Lodash.round (Num.mul price (Num.of_Z 1)) 2;
            Lodash.round (Num.mul price (Num.dec false 13 (-2))) 2;
            Lodash.round (Num.mul price (Num.dec false 113 (-2))) 2])
      ["4.99"; "6.99"; "9.99"]
  = [["4.99"; "0.65"; "5.64"]; ["6.99"; "0.91"; "7.9"]; ["9.99"; "1.3"; "11.29"]].
Proof. vm_compute. reflexivity. Qed.

Example lodash_round_values :
  map (fun s => Lodash.toString (Lodash.round (Num.ofString s) 2))
    ["1.005"; "0.125"; "-0.125"; "2.675"; "0.6487"; "5.6387"; "1e21"; "abc"; "0.004"]
  = ["1.01"; "0.13"; "-0.12"; "2.68"; "0.65"; "5.64"; "1e+21"; "NaN"; "0"].
Proof. vm_compute. reflexivity. Qed.

(* ================================================================== *)
(** * Facts about the string functions *)

Module StrFacts.

Lemma startsWith_app (p r : string) : Str.startsWith (p ++ r) p = true.
Proof.
  induction p as [|a p IH]; simpl.
  - reflexivity.
  - rewrite Ascii.eqb_refl. exact IH.
Qed.

Lemma startsWith_inv (s p : string) :
  Str.startsWith s p = true -> exists r, s = p ++ r.
Proof.
  revert s. induction p as [|a p IH]; intros s H.
  - exists s. reflexivity.
  - destruct s as [|b s]; simpl in H; [discriminate|].
    apply andb_true_iff in H. destruct H as [Hab Hrest].
    apply Ascii.eqb_eq in Hab. subst b.
    destruct (IH s Hrest) as [r ->]. exists r. reflexivity.
Qed.

Lemma startsWith_iff (s p : string) :
  Str.startsWith s p = true <-> exists r, s = p ++ r.
Proof.
  split.
  - apply startsWith_inv.
  - intros [r ->]. apply startsWith_app.
Qed.

Lemma startsWith_nonempty (s : string) (a : ascii) (p : string) :
  Str.startsWith s (String a p) = true -> Str.nonempty s = true.
Proof. destruct s; simpl; [discriminate | reflexivity]. Qed.

(** Two prefixes of one string agree on their first characters. *)
Lemma startsWith_other_head (s : string) (a b : ascii) (p q : string) :
  a <> b -> Str.startsWith s (String a p) = true -> Str.startsWith s (String b q) = false.
Proof.
  intros Hab H. destruct s as [|c s]; simpl in *; [discriminate|].
  apply andb_true_iff in H. destruct H as [Hac _].
  apply Ascii.eqb_eq in Hac. subst c.
  destruct (Ascii.eqb b a) eqn:E; [|reflexivity].
  apply Ascii.eqb_eq in E. congruence.
Qed.

Lemma includes_iff (s w : string) : Str.includes s w = true <-> Str.Substring w s.
Proof.
  unfold Str.Substring. induction s as [|c s IH]; simpl.
  - rewrite orb_false_r. split.
    + intros H. apply startsWith_inv in H. destruct H as [r Hr].
      exists "", r. exact Hr.
    + intros [pre [post H]]. destruct pre; simpl in H.
      * rewrite H. apply startsWith_app.
      * discriminate.
  - rewrite orb_true_iff, IH. split.
    + intros [H | [pre [post H]]].
      * apply startsWith_inv in H. destruct H as [r Hr]. exists "", r. exact Hr.
      * exists (String c pre), post. simpl. rewrite H. reflexivity.
    + intros [pre [post H]]. destruct pre as [|a pre]; simpl in H.
      * left. rewrite H. apply startsWith_app.
      * right. injection H as _ H. exists pre, post. exact H.
Qed.

Lemma split_without (sep : ascii) (s : string) :
  Str.mem sep s = false -> Str.split sep s = [s].
Proof.
  induction s as [|c s IH]; simpl; intros H.
  - reflexivity.
  - apply orb_false_iff in H. destruct H as [Hc Hs].
    rewrite Hc, (IH Hs). reflexivity.
Qed.

Lemma split_app (sep : ascii) (a b : string) :
  Str.mem sep a = false ->
  Str.split sep (a ++ String sep b) = a :: Str.split sep b.
Proof.
  induction a as [|c a IH]; simpl; intros H.
  - rewrite Ascii.eqb_refl. reflexivity.
  - apply orb_false_iff in H. destruct H as [Hc Ha].
    rewrite Hc, (IH Ha). reflexivity.
Qed.

Lemma existsb_includes (text : string) (words : list string) :
  existsb (fun word => Str.includes text word) words = true
  <-> exists word, In word words /\ Str.Substring word text.
Proof.
  rewrite existsb_exists. split; intros [word [Hin H]]; exists word; split; auto;
    apply includes_iff; exact H.
Qed.

End StrFacts.

(* ================================================================== *)
(** * Properties of app.js *)

Section Properties.

Variable APP_SECRET : string.
Variable VALIDATION_TOKEN : string.
Variable SERVER_URL : string.
Variable Math_random : nat -> Num.number.

(** ** The handlers return *)

(** Closes a goal [exists w', c w = (Normal tt, w') /\ response w' = response w]
    once the run of [c] computes. *)
Ltac returns := eexists; split; reflexivity.

Lemma receivedAuthentication_returns (ev : MessagingEvent) (o : Optin) (w : World) :
  optin ev = Some o ->
  exists w', receivedAuthentication ev w = (Normal tt, w') /\ response w' = response w.
Proof.
  intros H. unfold receivedAuthentication. rewrite H. cbv zeta.
  returns.
Qed.

Lemma receivedMessage_returns (ev : MessagingEvent) (m : Message) (w : World) :
  message ev = Some m ->
  exists w', receivedMessage SERVER_URL ev w = (Normal tt, w') /\ response w' = response w.
Proof.
  intros H. unfold receivedMessage. rewrite H. cbv zeta.
  destruct (truthy (is_echo m)); [returns|].
  destruct (truthy (quick_reply m)); [returns|].
  destruct (message_text m) as [t|]; [|returns].
  destruct (truthy t); [|returns].
  destruct (Lodash.some foodKeywords _); returns.
Qed.

Lemma receivedPostback_returns (ev : MessagingEvent) (p : Postback) (w : World) :
  postback ev = Some p ->
  exists w', receivedPostback SERVER_URL Math_random ev w = (Normal tt, w')
             /\ response w' = response w.
Proof.
  intros H. unfold receivedPostback. rewrite H. cbv zeta.
  destruct (postback_payload p) as [payload|]; [|returns].
  destruct (truthy payload); [|returns].
  destruct (Lodash.startsWith payload "restaurant"); [returns|].
  destruct (Lodash.startsWith payload "item"); returns.
Qed.

Lemma dispatch_returns (ev : MessagingEvent) (w : World) :
  exists w', dispatch SERVER_URL Math_random ev w = (Normal tt, w')
             /\ response w' = response w.
Proof.
  unfold dispatch.
  destruct (optin ev) as [o|] eqn:Ho.
  { apply (receivedAuthentication_returns ev o w Ho). }
  destruct (message ev) as [m|] eqn:Hm.
  { apply (receivedMessage_returns ev m w Hm). }
  destruct (postback ev) as [p|] eqn:Hp.
  { apply (receivedPostback_returns ev p w Hp). }
  returns.
Qed.

Lemma forEach_returns {A : Type} (f : A -> M unit) (l : list A) :
  (forall a w, exists w', f a w = (Normal tt, w') /\ response w' = response w) ->
  forall w, exists w', forEach l f w = (Normal tt, w') /\ response w' = response w.
Proof.
  intros Hf. induction l as [|a l IH]; intros w; simpl.
  - exists w. split; reflexivity.
  - unfold bind. destruct (Hf a w) as [w1 [E1 R1]]. rewrite E1.
    destruct (IH w1) as [w2 [E2 R2]]. exists w2. split; [exact E2 | congruence].
Qed.

(** On a body in which every entry has its events and every event its
    sender and its recipient, the route of POST /webhook returns; on a page
    subscription it answers 200 whatever the events were. *)
Lemma post_webhook_returns (data : WebhookBody) (w : World) :
  exists w', post_webhook SERVER_URL Math_random data w = (Normal tt, w') /\
    (object data = Some "page" ->
     response w' = Some {| status := 200; response_body := Some "OK" |}).
Proof.
  unfold post_webhook. destruct (loose_eq (object data) "page") eqn:E.
  - unfold bind.
    destruct (forEach_returns
                (fun pageEntry => forEach (messaging pageEntry) (dispatch SERVER_URL Math_random))
                (entry data)) with (w := w) as [w1 [E1 _]].
    { intros pe w0. apply forEach_returns. apply dispatch_returns. }
    rewrite E1. eexists. split; [reflexivity|]. intros _. reflexivity.
  - exists w. split; [reflexivity|].
    intros H. rewrite H in E. simpl in E. discriminate.
Qed.

(** ** GET /webhook *)

(** C8. A GET on /webhook is answered 200 with the value of hub.challenge
    as body exactly when hub.mode is "subscribe" and hub.verify_token is
    the configured validation token; in every other case the answer is
    403. *)
Theorem get_webhook_verifies (query : Query) (w : World) :
  exists w',
    get_webhook VALIDATION_TOKEN query w = (Normal tt, w') /\
    sent w' = sent w /\
    (response w' = Some {| status := 200; response_body := hub_challenge query |}
     <-> hub_mode query = Some "subscribe" /\
         hub_verify_token query = Some VALIDATION_TOKEN) /\
    (~ (hub_mode query = Some "subscribe" /\
        hub_verify_token query = Some VALIDATION_TOKEN)
     -> response w' = Some {| status := 403; response_body := Some "Forbidden" |}).
Proof.
  unfold get_webhook, strict_eq, loose_eq.
  destruct (hub_mode query) as [mode|]; simpl.
  - destruct (String.eqb_spec mode "subscribe") as [Hmode | Hmode]; simpl.
    + destruct (hub_verify_token query) as [token|]; simpl.
      * destruct (String.eqb_spec token VALIDATION_TOKEN) as [Htok | Htok].
        -- subst. eexists. split; [reflexivity|]. split; [reflexivity|].
           simpl. split; [tauto|]. intros Hn. exfalso. apply Hn. split; reflexivity.
        -- eexists. split; [reflexivity|]. split; [reflexivity|]. simpl. split.
           ++ split; [intros H; discriminate H|].
              intros [_ H]. exfalso. apply Htok. congruence.
           ++ reflexivity.
      * eexists. split; [reflexivity|]. split; [reflexivity|]. simpl. split.
        -- split; [intros H; discriminate H | intros [_ H]; discriminate H].
        -- reflexivity.
    + eexists. split; [reflexivity|]. split; [reflexivity|]. simpl. split.
      * split; [intros H; discriminate H|].
        intros [H _]. exfalso. apply Hmode. congruence.
      * reflexivity.
  - eexists. split; [reflexivity|]. split; [reflexivity|]. simpl. split.
    + split; [intros H; discriminate H | intros [H _]; discriminate H].
    + reflexivity.
Qed.

(** ** POST /webhook *)

(** C9. When the object field of the decoded body is not "page", the
    route of POST /webhook does nothing at all: it sends no HTTP response
    (neither 200 nor an error status) and makes no call of the Send API. *)
Theorem post_webhook_other_object (data : WebhookBody) (w : World) :
  object data <> Some "page" ->
  post_webhook SERVER_URL Math_random data w = (Normal tt, w) /\
  (response w = None ->
   response (snd (post_webhook SERVER_URL Math_random data w)) = None).
Proof.
  intros H. unfold post_webhook, loose_eq.
  destruct (object data) as [o|].
  - destruct (String.eqb_spec o "page") as [E | E].
    + exfalso. apply H. congruence.
    + split; [reflexivity | intros R; exact R].
  - split; [reflexivity | intros R; exact R].
Qed.

(** ** Messages *)

(** C5. A message event whose echo flag is set makes no call of the Send
    API, whatever text, attachments or quick reply it carries: the
    handler only writes to the console. *)
Theorem echo_sends_nothing (ev : MessagingEvent) (m : Message) (w : World) :
  message ev = Some m ->
  is_echo m = Some true ->
  receivedMessage SERVER_URL ev w =
    (Normal tt,
     {| sent := sent w;
        console := console w
                     ++ [log "Received message for user %d and page %d at %d with message:";
                         log_json (Some m);
                         log "Received echo for message %s and app %d with metadata %s"];
        response := response w;
        draws := draws w |}) /\
  (optin ev = None ->
   sent (snd (dispatch SERVER_URL Math_random ev w)) = sent w).
Proof.
  intros Hm Hecho.
  assert (E : receivedMessage SERVER_URL ev w =
    (Normal tt,
     {| sent := sent w;
        console := console w
                     ++ [log "Received message for user %d and page %d at %d with message:";
                         log_json (Some m);
                         log "Received echo for message %s and app %d with metadata %s"];
        response := response w;
        draws := draws w |})).
  { unfold receivedMessage. rewrite Hm. cbv zeta. rewrite Hecho.
    unfold bind, console_log, console_log_json. simpl.
    rewrite <- !app_assoc. reflexivity. }
  split; [exact E|].
  intros Ho. unfold dispatch. rewrite Ho, Hm. simpl. rewrite E. reflexivity.
Qed.

Lemma truthy_is_echo (m : Message) : is_echo m <> Some true -> truthy (is_echo m) = false.
Proof.
  destruct (is_echo m) as [[|]|]; intros H; try reflexivity.
  exfalso. apply H. reflexivity.
Qed.

Lemma truthy_text (t : string) : t <> "" -> truthy t = true.
Proof. destruct t; intros H; [exfalso; apply H; reflexivity | reflexivity]. Qed.

(** C3. A message that is neither an echo nor a quick reply and has a
    non-empty text is answered by one call of the Send API: the carousel
    of the three restaurants exactly when the lower-cased text contains
    one of the twelve keywords as a substring, and otherwise the text
    "I'm not sure what you mean". *)
Theorem keyword_reply (ev : MessagingEvent) (m : Message) (t : string) (w : World) :
  message ev = Some m ->
  is_echo m <> Some true ->
  quick_reply m = None ->
  message_text m = Some t ->
  t <> "" ->
  exists reply w',
    receivedMessage SERVER_URL ev w = (Normal tt, w') /\
    sent w' = (sent w ++ [{| recipient := sender_id ev; message_body := reply |}])%list /\
    (three_restaurants reply <->
     exists word,
       In word ["hungry"; "food"; "meal"; "snack"; "cuisine"; "drink"; "chow";
                "breakfast"; "lunch"; "dinner"; "brunch"; "buffet"] /\
       Str.Substring word (Str.toLowerCase t)) /\
    (~ (exists word,
          In word ["hungry"; "food"; "meal"; "snack"; "cuisine"; "drink"; "chow";
                   "breakfast"; "lunch"; "dinner"; "brunch"; "buffet"] /\
          Str.Substring word (Str.toLowerCase t))
     -> reply = text "I'm not sure what you mean").
Proof.
  intros Hm Hecho Hquick Htext Hne.
  pose proof (StrFacts.existsb_includes (Str.toLowerCase t) foodKeywords) as Hkw.
  change (exists word, In word foodKeywords /\ Str.Substring word (Str.toLowerCase t))
    with (exists word,
             In word ["hungry"; "food"; "meal"; "snack"; "cuisine"; "drink"; "chow";
                      "breakfast"; "lunch"; "dinner"; "brunch"; "buffet"] /\
             Str.Substring word (Str.toLowerCase t)) in Hkw.
  unfold receivedMessage. rewrite Hm. cbv zeta.
  rewrite (truthy_is_echo m Hecho), Hquick, Htext, (truthy_text t Hne).
  unfold Lodash.some, Lodash.includes, Lodash.toLower.
  destruct (existsb (fun word => Str.includes (Str.toLowerCase t) word) foodKeywords) eqn:E.
  - eexists. eexists. split; [reflexivity|]. split; [reflexivity|]. split.
    + split; [intros _; apply Hkw; reflexivity|].
      intros _. eexists. split; reflexivity.
    + intros Hn. exfalso. apply Hn. apply Hkw. reflexivity.
  - eexists. eexists. split; [reflexivity|]. split; [reflexivity|]. split.
    + split.
      * intros [els [Habs _]]. discriminate Habs.
      * intros H. apply Hkw in H. discriminate H.
    + intros _. reflexivity.
Qed.

(** ** Postbacks *)

Lemma restaurant_run (ev : MessagingEvent) (p : Postback) (payload : string) (w : World) :
  postback ev = Some p ->
  postback_payload p = Some payload ->
  Str.startsWith payload "restaurant" = true ->
  receivedPostback SERVER_URL Math_random ev w =
    (Normal tt,
     {| sent := sent w
                ++ [{| recipient := sender_id ev;
                       message_body := text "Want any of these?" |};
                    {| recipient := sender_id ev;
                       message_body :=
                         template (generic (lookup (recommendations SERVER_URL) payload)) |}];
        console := console w
                   ++ [log "Received postback for user %d and page %d with payload '%s' at %d"];
        response := response w;
        draws := draws w |}).
Proof.
  intros Hp Hpayload Hstart.
  unfold receivedPostback. rewrite Hp, Hpayload. cbv zeta.
  change (truthy payload) with (Str.nonempty payload).
  rewrite (StrFacts.startsWith_nonempty payload _ _ Hstart).
  unfold Lodash.startsWith. rewrite Hstart.
  cbv [bind sendTextMessage sendRecommendationsForRestaurant callSendAPI console_log
       sent console response draws].
  rewrite <- app_assoc. reflexivity.
Qed.

Lemma item_run (ev : MessagingEvent) (p : Postback) (payload : string) (w : World) :
  postback ev = Some p ->
  postback_payload p = Some payload ->
  Str.startsWith payload "item" = true ->
  receivedPostback SERVER_URL Math_random ev w =
    (Normal tt,
     {| sent := sent w
                ++ [{| recipient := sender_id ev;
                       message_body := text "We got your order!" |};
                    orderReceipt (sender_id ev) (Math_random (draws w))
                      (nth_error (Str.split "|" payload) 1)
                      (nth_error (Str.split "|" payload) 2)
                      (nth_error (Str.split "|" payload) 3)];
        console := console w
                   ++ [log "Received postback for user %d and page %d with payload '%s' at %d"];
        response := response w;
        draws := S (draws w) |}).
Proof.
  intros Hp Hpayload Hstart.
  unfold receivedPostback. rewrite Hp, Hpayload. cbv zeta.
  change (truthy payload) with (Str.nonempty payload).
  rewrite (StrFacts.startsWith_nonempty payload _ _ Hstart).
  unfold Lodash.startsWith, Lodash.split.
  rewrite (StrFacts.startsWith_other_head payload "i" "r" "tem" "estaurant");
    [|discriminate|exact Hstart].
  rewrite Hstart.
  cbv [bind sendTextMessage sendOrderReceipt random callSendAPI console_log
       sent console response draws].
  rewrite <- app_assoc. reflexivity.
Qed.

Lemma lookup_recommendations_other (payload : string) :
  payload <> "restaurant_campus_pizza" ->
  payload <> "restaurant_foodie_fruitie" ->
  payload <> "restaurant_williams" ->
  lookup (recommendations SERVER_URL) payload = None.
Proof.
  intros H1 H2 H3. cbv [lookup recommendations].
  destruct (String.eqb_spec "restaurant_campus_pizza" payload) as [E|_];
    [exfalso; apply H1; symmetry; exact E|].
  destruct (String.eqb_spec "restaurant_foodie_fruitie" payload) as [E|_];
    [exfalso; apply H2; symmetry; exact E|].
  destruct (String.eqb_spec "restaurant_williams" payload) as [E|_];
    [exfalso; apply H3; symmetry; exact E|].
  reflexivity.
Qed.

(** C6. A postback whose payload starts with "restaurant" is answered by
    the acknowledgement text and then by a generic template whose elements
    are the dishes that the table holds under the payload as key, in the
    order of the table: the three pizzas under "restaurant_campus_pizza",
    the three dishes of Foodie Fruitie under "restaurant_foodie_fruitie",
    the three of Williams under "restaurant_williams", each with its
    title, its price as subtitle, its image and its one button; under any
    other key there are no elements. *)
Theorem restaurant_postback_catalog
    (ev : MessagingEvent) (p : Postback) (payload : string) (w : World) :
  postback ev = Some p ->
  postback_payload p = Some payload ->
  Str.startsWith payload "restaurant" = true ->
  exists w' elements,
    receivedPostback SERVER_URL Math_random ev w = (Normal tt, w') /\
    sent w' =
      (sent w
       ++ [{| recipient := sender_id ev; message_body := text "Want any of these?" |};
           {| recipient := sender_id ev;
              message_body := template (generic elements) |}])%list /\
    (payload = "restaurant_campus_pizza" ->
     exists a b c,
       elements = Some [a; b; c] /\
       map title [a; b; c] = ["Vegetarian Pizza"; "Cheese Pizza"; "Pepperoni Pizza"] /\
       map subtitle [a; b; c] = ["4.99"; "4.99"; "4.99"] /\
       map item_url [a; b; c] = [None; None; None] /\
       map image_url [a; b; c] =
         [SERVER_URL ++ "/assets/vegetarian_pizza.png";
          SERVER_URL ++ "/assets/cheese_pizza.png";
          SERVER_URL ++ "/assets/pepperoni_pizza.png"] /\
       map buttons [a; b; c] =
         [[postback_button "I want this!"
             ("item|Vegetarian Pizza|4.99|" ++ SERVER_URL ++ "/assets/vegetarian_pizza.png")];
          [postback_button "I want this!"
             ("item|Cheese Pizza|4.99|" ++ SERVER_URL ++ "/assets/cheese_pizza.png")];
          [postback_button "I want this!"
             ("item|Pepperoni Pizza|4.99|" ++ SERVER_URL ++ "/assets/pepperoni_pizza.png")]]) /\
    (payload = "restaurant_foodie_fruitie" ->
     exists a b c,
       elements = Some [a; b; c] /\
       map title [a; b; c] = ["Teriyaki Salmon"; "BBQ Pork Fried Rice"; "Curry Ramen"] /\
       map subtitle [a; b; c] = ["9.99"; "9.99"; "9.99"] /\
       map item_url [a; b; c] = [None; None; None] /\
       map image_url [a; b; c] =
         [SERVER_URL ++ "/assets/teriyaki_salmon.png";
          SERVER_URL ++ "/assets/pork_fried_rice.png";
          SERVER_URL ++ "/assets/curry_ramen.png"] /\
       map buttons [a; b; c] =
         [[postback_button "I want this!"
             ("item|Teriyaki Salmon|9.99|" ++ SERVER_URL ++ "/assets/teriyaki_salmon.png")];
          [postback_button "I want this!"
             ("item|BBQ Pork Fried Rice|9.99|" ++ SERVER_URL ++ "/assets/pork_fried_rice.png")];
          [postback_button "I want this!"
             ("item|Curry Ramen|9.99|" ++ SERVER_URL ++ "/assets/curry_ramen.png")]]) /\
    (payload = "restaurant_williams" ->
     exists a b c,
       elements = Some [a; b; c] /\
       map title [a; b; c] =
         ["Chicken Quesadilla"; "William's Big Breakfast"; "Mac'n'Cheese"] /\
       map subtitle [a; b; c] = ["6.99"; "9.99"; "4.99"] /\
       map item_url [a; b; c] = [None; None; None] /\
       map image_url [a; b; c] =
         [SERVER_URL ++ "/assets/chicken_quesadilla.png";
          SERVER_URL ++ "/assets/big_breakfast.png";
          SERVER_URL ++ "/assets/mac_cheese.png"] /\
       map buttons [a; b; c] =
         [[postback_button "I want this!"
             ("item|Chicken Quesadilla|6.99|" ++ SERVER_URL ++ "/assets/chicken_quesadilla.png")];
          [postback_button "I want this!"
             ("item|William's Big Breakfast|9.99|" ++ SERVER_URL ++ "/assets/big_breakfast.png")];
          [postback_button "I want this!"
             ("item|Mac'n'Cheese|4.99|" ++ SERVER_URL ++ "/assets/mac_cheese.png")]]) /\
    (payload <> "restaurant_campus_pizza" ->
     payload <> "restaurant_foodie_fruitie" ->
     payload <> "restaurant_williams" ->
     elements = None).
Proof.
  intros Hp Hpayload Hstart.
  exists (snd (receivedPostback SERVER_URL Math_random ev w)),
         (lookup (recommendations SERVER_URL) payload).
  rewrite (restaurant_run ev p payload w Hp Hpayload Hstart). cbv [snd sent].
  split; [reflexivity|]. split; [reflexivity|].
  split; [|split; [|split]].
  - intros ->. do 3 eexists. split; [reflexivity|]. repeat split.
  - intros ->. do 3 eexists. split; [reflexivity|]. repeat split.
  - intros ->. do 3 eexists. split; [reflexivity|]. repeat split.
  - apply lookup_recommendations_other.
Qed.

(** C10. A postback whose payload starts with "restaurant" and is none of
    the three keys of the table is still answered by the acknowledgement
    text and by a generic template, whose elements are undefined; no
    other call is made. *)
Theorem restaurant_postback_unknown_key
    (ev : MessagingEvent) (p : Postback) (payload : string) (w : World) :
  postback ev = Some p ->
  postback_payload p = Some payload ->
  Str.startsWith payload "restaurant" = true ->
  payload <> "restaurant_campus_pizza" ->
  payload <> "restaurant_foodie_fruitie" ->
  payload <> "restaurant_williams" ->
  exists w',
    receivedPostback SERVER_URL Math_random ev w = (Normal tt, w') /\
    sent w' =
      (sent w
       ++ [{| recipient := sender_id ev; message_body := text "Want any of these?" |};
           {| recipient := sender_id ev; message_body := template (generic None) |}])%list.
Proof.
  intros Hp Hpayload Hstart H1 H2 H3.
  eexists. split.
  - apply (restaurant_run ev p payload w Hp Hpayload Hstart).
  - cbv [sent]. rewrite (lookup_recommendations_other payload H1 H2 H3). reflexivity.
Qed.

Lemma nth_error_short {A : Type} (l : list A) (n : nat) :
  (List.length l <= n)%nat -> nth_error l n = None.
Proof. intros H. apply nth_error_None. exact H. Qed.

(** C2, as the code has it.  A postback whose payload starts with "item"
    and splits on the bar into fewer than four fields does not crash; it
    is answered by the acknowledgement "We got your order!" and then by a
    receipt built from the fields there are: the image is undefined, and
    with fewer than three fields the price and the amounts of the summary
    are NaN. *)
Theorem short_item_postback
    (ev : MessagingEvent) (p : Postback) (payload : string) (w : World) :
  postback ev = Some p ->
  postback_payload p = Some payload ->
  Str.startsWith payload "item" = true ->
  (List.length (Lodash.split payload "|") < 4)%nat ->
  exists w' r el,
    receivedPostback SERVER_URL Math_random ev w = (Normal tt, w') /\
    sent w' =
      (sent w
       ++ [{| recipient := sender_id ev; message_body := text "We got your order!" |};
           {| recipient := sender_id ev; message_body := template (receipt r) |}])%list /\
    receipt_elements r = [el] /\
    receipt_title el = nth_error (Lodash.split payload "|") 1 /\
    receipt_image_url el = None /\
    ((List.length (Lodash.split payload "|") < 3)%nat ->
     price el = Num.NaN /\
     summary r = {| subtotal := Num.NaN; shipping_cost := Num.of_Z 0;
                    total_tax := Num.NaN; total_cost := Num.NaN |}).
Proof.
  intros Hp Hpayload Hstart Hlen. unfold Lodash.split in *.
  do 3 eexists. split.
  - apply (item_run ev p payload w Hp Hpayload Hstart).
  - cbv [sent]. unfold orderReceipt. cbv zeta.
    split; [reflexivity|]. cbv [receipt_elements]. split; [reflexivity|].
    cbv [receipt_title receipt_image_url price summary].
    split; [reflexivity|]. split.
    + apply nth_error_short. lia.
    + intros Hlen3.
      rewrite (nth_error_short (Str.split "|" payload) 2) by lia.
      split; vm_compute; reflexivity.
Qed.

Lemma split_item (name cost url : string) :
  Str.mem "|" name = false ->
  Str.mem "|" cost = false ->
  Str.mem "|" url = false ->
  Str.split "|" ("item|" ++ name ++ "|" ++ cost ++ "|" ++ url) = ["item"; name; cost; url].
Proof.
  intros Hn Hc Hu.
  change ("item|" ++ name ++ "|" ++ cost ++ "|" ++ url)
    with ("item" ++ String "|" (name ++ String "|" (cost ++ String "|" url))).
  rewrite StrFacts.split_app by reflexivity.
  rewrite (StrFacts.split_app "|" name _ Hn).
  rewrite (StrFacts.split_app "|" cost _ Hc).
  rewrite (StrFacts.split_without "|" url Hu).
  reflexivity.
Qed.

(** C4. The receipt sent for an item postback "item|name|price|url"
    carries in its summary the price times 1, times 0.13 and times 1.13,
    each product rounded to two decimals by itself.  For the price 4.99
    these are 4.99, 0.65 and 5.64.  The total is not the sum of the two
    others: for the price 0.0045 they are 0, 0 and 0.01. *)
Theorem item_receipt_summary
    (ev : MessagingEvent) (p : Postback) (name cost url : string) (w : World) :
  postback ev = Some p ->
  postback_payload p = Some ("item|" ++ name ++ "|" ++ cost ++ "|" ++ url) ->
  Str.mem "|" name = false ->
  Str.mem "|" cost = false ->
  Str.mem "|" url = false ->
  (exists w' r,
     receivedPostback SERVER_URL Math_random ev w = (Normal tt, w') /\
     sent w' =
       (sent w
        ++ [{| recipient := sender_id ev; message_body := text "We got your order!" |};
            {| recipient := sender_id ev; message_body := template (receipt r) |}])%list /\
     summary r =
       {| subtotal := Lodash.round (Num.mul (Num.ofString cost) (Num.of_Z 1)) 2;
          shipping_cost := Num.of_Z 0;
          total_tax := Lodash.round (Num.mul (Num.ofString cost) (Num.dec false 13 (-2))) 2;
          total_cost :=
            Lodash.round (Num.mul (Num.ofString cost) (Num.dec false 113 (-2))) 2 |} /\
     (cost = "4.99" ->
      subtotal (summary r) = Num.dec false 499 (-2) /\
      total_tax (summary r) = Num.dec false 65 (-2) /\
      total_cost (summary r) = Num.dec false 564 (-2)) /\
     (cost = "0.0045" ->
      subtotal (summary r) = Num.of_Z 0 /\
      total_tax (summary r) = Num.of_Z 0 /\
      total_cost (summary r) = Num.dec false 1 (-2) /\
      Num.add (subtotal (summary r)) (total_tax (summary r)) <> total_cost (summary r))).
Proof.
  intros Hp Hpayload Hn Hc Hu.
  assert (Hstart : Str.startsWith ("item|" ++ name ++ "|" ++ cost ++ "|" ++ url) "item" = true)
    by reflexivity.
  do 2 eexists. split.
  - apply (item_run ev p _ w Hp Hpayload Hstart).
  - cbv [sent]. rewrite (split_item name cost url Hn Hc Hu).
    unfold orderReceipt. cbv zeta. cbv [nth_error Num.ToNumber].
    split; [reflexivity|]. cbv [summary subtotal total_tax total_cost].
    split; [reflexivity|]. split.
    + intros ->. repeat split; vm_compute; reflexivity.
    + intros ->. repeat split; try (vm_compute; reflexivity).
      vm_compute. discriminate.
Qed.

(** ** The signature *)

(** With no header, or an empty one, the check writes one line to the
    console and returns. *)
Lemma verify_absent (signature : option string) (buf : string) (w : World) :
  truthy signature = false ->
  verifyRequestSignature APP_SECRET signature buf w =
    (Normal tt,
     {| sent := sent w;
        console := console w ++ [error "Couldn't validate the signature."];
        response := response w;
        draws := draws w |}).
Proof. intros H. unfold verifyRequestSignature. rewrite H. reflexivity. Qed.

(** With a header, the check compares the piece after the first equals
    sign with the digest, and throws unless they are the same string. *)
Lemma verify_present (s buf : string) (w : World) :
  s <> "" ->
  verifyRequestSignature APP_SECRET (Some s) buf w =
    if loose_neq (nth_error (Str.split "=" s) 1) (Crypto.createHmac_sha1_hex APP_SECRET buf)
    then (Throw (Error "Couldn't validate the request signature."), w)
    else (Normal tt, w).
Proof.
  intros H. unfold verifyRequestSignature.
  change (truthy (Some s)) with (Str.nonempty s).
  destruct s as [|c s]; [exfalso; apply H; reflexivity|]. cbv zeta. simpl negb. cbv iota.
  destruct (loose_neq _ _); reflexivity.
Qed.

Lemma split_header (method digest : string) :
  Str.mem "=" method = false ->
  Str.mem "=" digest = false ->
  Str.split "=" (method ++ "=" ++ digest) = [method; digest].
Proof.
  intros Hm Hd.
  change (method ++ "=" ++ digest) with (method ++ String "=" digest).
  rewrite (StrFacts.split_app "=" method digest Hm).
  rewrite (StrFacts.split_without "=" digest Hd). reflexivity.
Qed.

Lemma header_not_empty (method digest : string) : method ++ "=" ++ digest <> "".
Proof. destruct method; discriminate. Qed.

(** C1, as the code has it.  For a header "method=digest" the check
    accepts exactly when [digest] is, character for character, the
    lower-case hexadecimal HMAC-SHA1 digest of the raw body under the
    shared secret; otherwise it throws, and the request is not processed:
    no event is handled and nothing is sent. *)
Theorem signature_accepted_iff (method digest buf : string) (w : World) :
  Str.mem "=" method = false ->
  Str.mem "=" digest = false ->
  (verifyRequestSignature APP_SECRET (Some (method ++ "=" ++ digest)) buf w = (Normal tt, w)
   <-> digest = Crypto.createHmac_sha1_hex APP_SECRET buf) /\
  (digest <> Crypto.createHmac_sha1_hex APP_SECRET buf ->
   verifyRequestSignature APP_SECRET (Some (method ++ "=" ++ digest)) buf w
     = (Throw (Error "Couldn't validate the request signature."), w) /\
   forall data : WebhookBody,
     POST APP_SECRET SERVER_URL Math_random
       {| x_hub_signature := Some (method ++ "=" ++ digest); rawBody := buf; body := data |} w
     = (Throw (Error "Couldn't validate the request signature."), w)).
Proof.
  intros Hm Hd.
  pose proof (verify_present (method ++ "=" ++ digest) buf w (header_not_empty method digest))
    as Hrun.
  rewrite (split_header method digest Hm Hd) in Hrun.
  unfold loose_neq, loose_eq in Hrun. simpl nth_error in Hrun. cbv beta iota in Hrun.
  revert Hrun.
  destruct (String.eqb_spec digest (Crypto.createHmac_sha1_hex APP_SECRET buf)) as [E | E];
    simpl negb; cbv iota; intros Hrun.
  - split.
    + split; [intros _; exact E | intros _; exact Hrun].
    + intros Hne. exfalso. apply Hne. exact E.
  - split.
    + split; [|intros E'; exfalso; apply E; exact E'].
      intros Hok. rewrite Hrun in Hok. discriminate Hok.
    + intros _. split; [exact Hrun|].
      intros data. unfold POST, bind. cbv [x_hub_signature rawBody]. rewrite Hrun. reflexivity.
Qed.

End Properties.

(* ================================================================== *)
(** * The properties on sample requests *)

(** C1 as stated fails.  The header carries the digest in upper case: it
    equals the computed digest when the case of the hexadecimal digits is
    ignored, and the check throws. *)
Lemma uppercase_digest_is_rejected :
  Str.toLowerCase "18FE6CEC23771C3DFF7822497DCCC1873528D436"
    = Str.toLowerCase (Crypto.createHmac_sha1_hex "app-secret" "{}") /\
  verifyRequestSignature "app-secret"
      (Some "sha1=18FE6CEC23771C3DFF7822497DCCC1873528D436") "{}" World0
    = (Throw (Error "Couldn't validate the request signature."), World0).
Proof. split; vm_compute; reflexivity. Qed.

(** The same body with the digest as the platform sends it is accepted. *)
Lemma signature_accepted_iff_witness :
  Str.mem "=" "sha1" = false /\
  Str.mem "=" "18fe6cec23771c3dff7822497dccc1873528d436" = false /\
  verifyRequestSignature "app-secret"
      (Some "sha1=18fe6cec23771c3dff7822497dccc1873528d436") "{}" World0
    = (Normal tt, World0).
Proof.
  split; [reflexivity|]. split; [reflexivity|].
  destruct (signature_accepted_iff "app-secret" sample_url sample_random
              "sha1" "18fe6cec23771c3dff7822497dccc1873528d436" "{}" World0)
    as [[_ Haccept] _]; [reflexivity | reflexivity |].
  apply Haccept. vm_compute. reflexivity.
Defined.

(** C2 as stated fails.  The payload "item|Cheese Pizza" has two fields;
    the answer is the acknowledgement of an order and a receipt, and not
    the text sent for a postback that is not understood. *)
Lemma short_item_is_not_unrecognized :
  Str.startsWith "item|Cheese Pizza" "item" = true /\
  List.length (Lodash.split "item|Cheese Pizza" "|") = 2%nat /\
  (exists r,
     sent (snd (receivedPostback sample_url sample_random
                  (sample_postback "item|Cheese Pizza") World0))
     = [{| recipient := "1254459154682919"; message_body := text "We got your order!" |};
        {| recipient := "1254459154682919"; message_body := template (receipt r) |}]) /\
  sent (snd (receivedPostback sample_url sample_random
               (sample_postback "item|Cheese Pizza") World0))
  <> [{| recipient := "1254459154682919";
         message_body := text "Sorry, we couldn't understand your message" |}].
Proof.
  split; [reflexivity|]. split; [reflexivity|]. split.
  - eexists. vm_compute. reflexivity.
  - vm_compute. discriminate.
Qed.

Lemma short_item_postback_witness :
  exists w' r el,
    receivedPostback sample_url sample_random (sample_postback "item|Cheese Pizza") World0
      = (Normal tt, w') /\
    sent w' = [{| recipient := "1254459154682919"; message_body := text "We got your order!" |};
               {| recipient := "1254459154682919"; message_body := template (receipt r) |}] /\
    receipt_elements r = [el] /\
    receipt_title el = Some "Cheese Pizza" /\
    receipt_image_url el = None /\
    price el = Num.NaN.
Proof.
  destruct (short_item_postback sample_url sample_random
              (sample_postback "item|Cheese Pizza")
              {| postback_payload := Some "item|Cheese Pizza" |}
              "item|Cheese Pizza" World0)
    as [w' [r [el [Hrun [Hsent [Hel [Htitle [Himg Hnan]]]]]]]];
    [reflexivity | reflexivity | reflexivity | vm_compute; lia |].
  exists w', r, el.
  split; [exact Hrun|]. split; [exact Hsent|]. split; [exact Hel|].
  split; [exact Htitle|]. split; [exact Himg|].
  apply Hnan. vm_compute. lia.
Defined.

Lemma keyword_reply_witness :
  exists reply w',
    receivedMessage sample_url (sample_event (Some (sample_text "I'm HUNGRY now")) None) World0
      = (Normal tt, w') /\
    sent w' = [{| recipient := "1254459154682919"; message_body := reply |}] /\
    three_restaurants reply.
Proof.
  destruct (keyword_reply sample_url
              (sample_event (Some (sample_text "I'm HUNGRY now")) None)
              (sample_text "I'm HUNGRY now") "I'm HUNGRY now" World0)
    as [reply [w' [Hrun [Hsent [Hiff _]]]]];
    [reflexivity | discriminate | reflexivity | reflexivity | discriminate |].
  exists reply, w'. split; [exact Hrun|]. split; [exact Hsent|].
  apply Hiff. exists "hungry". split; [left; reflexivity|].
  exists "i'm ", " now". reflexivity.
Defined.

Lemma item_receipt_summary_witness :
  exists w' r,
    receivedPostback sample_url sample_random
      (sample_postback "item|Cheese Pizza|4.99|http://x/img.png") World0 = (Normal tt, w') /\
    sent w' = [{| recipient := "1254459154682919"; message_body := text "We got your order!" |};
               {| recipient := "1254459154682919"; message_body := template (receipt r) |}] /\
    Num.toString (subtotal (summary r)) = "4.99" /\
    Num.toString (total_tax (summary r)) = "0.65" /\
    Num.toString (total_cost (summary r)) = "5.64".
Proof.
  destruct (item_receipt_summary sample_url sample_random
              (sample_postback "item|Cheese Pizza|4.99|http://x/img.png")
              {| postback_payload := Some "item|Cheese Pizza|4.99|http://x/img.png" |}
              "Cheese Pizza" "4.99" "http://x/img.png" World0)
    as [w' [r [Hrun [Hsent [_ [Hprice _]]]]]];
    [reflexivity | reflexivity | reflexivity | reflexivity | reflexivity |].
  destruct (Hprice eq_refl) as [Hsub [Htax Htotal]].
  exists w', r. split; [exact Hrun|]. split; [exact Hsent|].
  rewrite Hsub, Htax, Htotal. repeat split; vm_compute; reflexivity.
Defined.

Lemma echo_sends_nothing_witness :
  sent (snd (receivedMessage sample_url (sample_event (Some sample_echo) None) World0)) = [] /\
  sent (snd (dispatch sample_url sample_random (sample_event (Some sample_echo) None) World0))
    = [].
Proof.
  destruct (echo_sends_nothing sample_url sample_random
              (sample_event (Some sample_echo) None) sample_echo World0)
    as [Hrun Hdispatch]; [reflexivity | reflexivity |].
  split.
  - rewrite Hrun. reflexivity.
  - apply Hdispatch. reflexivity.
Defined.

Lemma restaurant_postback_catalog_witness :
  exists w' a b c,
    receivedPostback sample_url sample_random (sample_postback "restaurant_williams") World0
      = (Normal tt, w') /\
    sent w' = [{| recipient := "1254459154682919"; message_body := text "Want any of these?" |};
               {| recipient := "1254459154682919";
                  message_body := template (generic (Some [a; b; c])) |}] /\
    map title [a; b; c] = ["Chicken Quesadilla"; "William's Big Breakfast"; "Mac'n'Cheese"] /\
    map subtitle [a; b; c] = ["6.99"; "9.99"; "4.99"].
Proof.
  destruct (restaurant_postback_catalog sample_url sample_random
              (sample_postback "restaurant_williams")
              {| postback_payload := Some "restaurant_williams" |}
              "restaurant_williams" World0)
    as [w' [elements [Hrun [Hsent [_ [_ [Hwilliams _]]]]]]];
    [reflexivity | reflexivity | reflexivity |].
  destruct (Hwilliams eq_refl) as [a [b [c [Hels [Htitles [Hprices _]]]]]].
  exists w', a, b, c. split; [exact Hrun|]. split; [|split; [exact Htitles | exact Hprices]].
  rewrite Hsent, Hels. reflexivity.
Defined.

Lemma restaurant_postback_unknown_key_witness :
  exists w',
    receivedPostback sample_url sample_random (sample_postback "restaurant_pho_house") World0
      = (Normal tt, w') /\
    sent w' = [{| recipient := "1254459154682919"; message_body := text "Want any of these?" |};
               {| recipient := "1254459154682919"; message_body := template (generic None) |}].
Proof.
  apply (restaurant_postback_unknown_key sample_url sample_random
           (sample_postback "restaurant_pho_house")
           {| postback_payload := Some "restaurant_pho_house" |}
           "restaurant_pho_house" World0);
    [reflexivity | reflexivity | reflexivity | discriminate | discriminate | discriminate].
Defined.

Lemma post_webhook_other_object_witness :
  post_webhook sample_url sample_random
    {| object := Some "user";
       entry := [{| page_id := "682919125445915"; time := 1458692752478;
                    messaging := [sample_postback "restaurant_williams"] |}] |}
    World0 = (Normal tt, World0).
Proof.
  apply (post_webhook_other_object sample_url sample_random
           {| object := Some "user";
              entry := [{| page_id := "682919125445915"; time := 1458692752478;
                           messaging := [sample_postback "restaurant_williams"] |}] |}
           World0).
  discriminate.
Defined.

(* ================================================================== *)
(** * Further properties of app.js *)

(** ** How the replies of the handlers compose *)

Module RepliesFacts.

Section Allowed.

Context {A : Type} (allowed : string -> Prop).

Lemma Replies_ret (a : A) : Replies allowed 0 (ret a).
Proof.
  intros w. exists a, w, []. split; [reflexivity|]. split; [symmetry; apply app_nil_r|].
  split; [apply Nat.le_refl|]. split; [constructor | reflexivity].
Qed.

Lemma Replies_weaken (wider : string -> Prop) (n m : nat) (c : M A) :
  (n <= m)%nat -> (forall r, allowed r -> wider r) ->
  Replies allowed n c -> Replies wider m c.
Proof.
  intros Hnm Hsub Hc w. destruct (Hc w) as [a [w' [l [E [S [L [F R]]]]]]].
  exists a, w', l. split; [exact E|]. split; [exact S|]. split; [lia|]. split; [|exact R].
  apply (Forall_impl _ (fun m => Hsub (recipient m)) F).
Qed.

Lemma Replies_bind {B : Type} (n m : nat) (c : M A) (k : A -> M B) :
  Replies allowed n c -> (forall a, Replies allowed m (k a)) ->
  Replies allowed (n + m) (bind c k).
Proof.
  intros Hc Hk w. unfold bind.
  destruct (Hc w) as [a [w1 [l1 [E1 [S1 [L1 [F1 R1]]]]]]]. rewrite E1.
  destruct (Hk a w1) as [b [w2 [l2 [E2 [S2 [L2 [F2 R2]]]]]]].
  exists b, w2, (l1 ++ l2)%list. split; [exact E2|]. split.
  - rewrite S2, S1. symmetry. apply app_assoc.
  - split; [rewrite length_app; lia|]. split; [|congruence].
    apply Forall_app. split; assumption.
Qed.

End Allowed.

Section Primitives.

Variable allowed : string -> Prop.

Lemma Replies_console_log (first : string) : Replies allowed 0 (console_log first).
Proof.
  intros w. eexists tt, _, []. split; [reflexivity|]. split; [symmetry; apply app_nil_r|].
  split; [apply Nat.le_refl|]. split; [constructor | reflexivity].
Qed.

Lemma Replies_console_log_json (m : option Message) : Replies allowed 0 (console_log_json m).
Proof.
  intros w. eexists tt, _, []. split; [reflexivity|]. split; [symmetry; apply app_nil_r|].
  split; [apply Nat.le_refl|]. split; [constructor | reflexivity].
Qed.

Lemma Replies_random (rnd : nat -> Num.number) : Replies allowed 0 (random rnd).
Proof.
  intros w. eexists _, _, []. split; [reflexivity|]. split; [symmetry; apply app_nil_r|].
  split; [apply Nat.le_refl|]. split; [constructor | reflexivity].
Qed.

Lemma Replies_callSendAPI (messageData : MessageData) :
  allowed (recipient messageData) -> Replies allowed 1 (callSendAPI messageData).
Proof.
  intros H w. eexists tt, _, [messageData]. split; [reflexivity|]. split; [reflexivity|].
  split; [apply Nat.le_refl|]. split; [|reflexivity].
  constructor; [exact H | constructor].
Qed.

Lemma Replies_sendTextMessage (who messageText : string) :
  allowed who -> Replies allowed 1 (sendTextMessage who messageText).
Proof. intros H. apply Replies_callSendAPI. exact H. Qed.

(** [forEach] adds up the bounds of the runs of its function. *)
Lemma Replies_forEach {A : Type} (f : A -> M unit) (n : nat) (array : list A) :
  (forall a, In a array -> Replies allowed n (f a)) ->
  Replies allowed (List.length array * n) (forEach array f).
Proof.
  induction array as [|a rest IH]; intros Hf; simpl.
  - apply Replies_ret.
  - apply Replies_bind.
    + apply Hf. left. reflexivity.
    + intros _. apply IH. intros b Hb. apply Hf. right. exact Hb.
Qed.

End Primitives.

Section Throwing.

Variable allowed : string -> Prop.

Lemma Attempts_of_Replies (n : nat) (c : M unit) :
  Replies allowed n c -> Attempts allowed n true c.
Proof.
  intros Hc w. destruct (Hc w) as [[] [w' [l [E [S [L [F R]]]]]]].
  exists (Normal tt), w', l. repeat split; assumption.
Qed.

Lemma Attempts_throw (n : nat) (msg : string) :
  Attempts allowed n false (throw (TypeError msg)).
Proof.
  intros w. exists (Throw (TypeError msg)), w, []. split; [reflexivity|].
  split; [symmetry; apply app_nil_r|]. split; [apply Nat.le_0_l|].
  split; [constructor|]. split; [reflexivity|]. exists msg. reflexivity.
Qed.

Lemma Attempts_ext (n : nat) (good : bool) (c c' : M unit) :
  (forall w, c w = c' w) -> Attempts allowed n good c -> Attempts allowed n good c'.
Proof.
  intros Hext Hc w. destruct (Hc w) as [r [w' [l [E H]]]].
  exists r, w', l. split; [rewrite <- Hext; exact E | exact H].
Qed.

Lemma Attempts_weaken (wider : string -> Prop) (n m : nat) (good : bool) (c : M unit) :
  (n <= m)%nat -> (forall r, allowed r -> wider r) ->
  Attempts allowed n good c -> Attempts wider m good c.
Proof.
  intros Hnm Hsub Hc w. destruct (Hc w) as [r [w' [l [E [S [L [F [R G]]]]]]]].
  exists r, w', l. split; [exact E|]. split; [exact S|]. split; [lia|].
  split; [|split; [exact R | exact G]].
  apply (Forall_impl _ (fun m => Hsub (recipient m)) F).
Qed.

(** [forEach] stops at the first element on which its function throws, and
    returns when there is none; the bounds of the runs add up. *)
Lemma Attempts_forEach {A : Type} (ok : A -> bool) (bound : A -> nat) (f : A -> M unit)
    (array : list A) :
  (forall a, In a array -> Attempts allowed (bound a) (ok a) (f a)) ->
  Attempts allowed (list_sum (map bound array)) (forallb ok array) (forEach array f).
Proof.
  induction array as [|a rest IH]; intros Hf w.
  - exists (Normal tt), w, []. split; [reflexivity|]. split; [symmetry; apply app_nil_r|].
    split; [apply Nat.le_0_l|]. split; [constructor|]. split; reflexivity.
  - destruct (Hf a (or_introl eq_refl) w) as [r [w1 [l1 [E1 [S1 [L1 [F1 [R1 G1]]]]]]]].
    simpl forEach. unfold bind. rewrite E1. simpl forallb. simpl map. simpl list_sum.
    destruct (ok a).
    + subst r.
      destruct (IH (fun b Hb => Hf b (or_intror Hb)) w1)
        as [r2 [w2 [l2 [E2 [S2 [L2 [F2 [R2 G2]]]]]]]].
      exists r2, w2, (l1 ++ l2)%list. split; [exact E2|]. split.
      * rewrite S2, S1. symmetry. apply app_assoc.
      * split; [rewrite length_app; lia|]. split; [apply Forall_app; split; assumption|].
        split; [congruence | exact G2].
    + destruct G1 as [msg ->].
      exists (Throw (TypeError msg)), w1, l1. split; [reflexivity|]. split; [exact S1|].
      split; [lia|]. split; [exact F1|]. split; [exact R1|]. exists msg. reflexivity.
Qed.

End Throwing.

End RepliesFacts.

Section Further.

Variable APP_SECRET : string.
Variable SERVER_URL : string.
Variable Math_random : nat -> Num.number.

Import RepliesFacts.

(** Reduces a goal on at most some number of replies to the sender of [ev]
    to the same goal with the smaller bound [k]. *)
Ltac fewer ev k :=
  apply (Replies_weaken (eq (sender_id ev)) (eq (sender_id ev)) k); [lia | auto |].

(** ** Every reply goes to the sender *)

Lemma Replies_receivedAuthentication (ev : MessagingEvent) (o : Optin) :
  optin ev = Some o ->
  Replies (eq (sender_id ev)) 1 (receivedAuthentication ev).
Proof.
  intros H. unfold receivedAuthentication. rewrite H. cbv zeta.
  apply (Replies_bind _ 0 1).
  - apply Replies_console_log.
  - intros _. apply Replies_sendTextMessage. reflexivity.
Qed.

Lemma Replies_receivedMessage (ev : MessagingEvent) (m : Message) :
  message ev = Some m ->
  Replies (eq (sender_id ev)) 1 (receivedMessage SERVER_URL ev).
Proof.
  intros H. unfold receivedMessage. rewrite H. cbv zeta.
  apply (Replies_bind _ 0 1); [apply Replies_console_log | intros _].
  apply (Replies_bind _ 0 1); [apply Replies_console_log_json | intros _].
  destruct (truthy (is_echo m)).
  { fewer ev 0%nat; apply Replies_console_log. }
  destruct (truthy (quick_reply m)).
  { apply (Replies_bind _ 0 1); [apply Replies_console_log | intros _].
    apply Replies_sendTextMessage. reflexivity. }
  destruct (message_text m) as [t|];
    [|fewer ev 0%nat; apply Replies_ret].
  destruct (truthy t);
    [|fewer ev 0%nat; apply Replies_ret].
  destruct (Lodash.some foodKeywords _).
  - apply Replies_callSendAPI. reflexivity.
  - apply Replies_sendTextMessage. reflexivity.
Qed.

Lemma Replies_receivedPostback (ev : MessagingEvent) (p : Postback) :
  postback ev = Some p ->
  Replies (eq (sender_id ev)) 2 (receivedPostback SERVER_URL Math_random ev).
Proof.
  intros H. unfold receivedPostback. rewrite H. cbv zeta.
  apply (Replies_bind _ 2 0); [|intros _; apply Replies_console_log].
  destruct (postback_payload p) as [payload|];
    [|fewer ev 0%nat; apply Replies_ret].
  destruct (truthy payload);
    [|fewer ev 0%nat; apply Replies_ret].
  destruct (Lodash.startsWith payload "restaurant").
  { apply (Replies_bind _ 1 1); [apply Replies_sendTextMessage; reflexivity | intros _].
    apply Replies_callSendAPI. reflexivity. }
  destruct (Lodash.startsWith payload "item").
  - apply (Replies_bind _ 1 1); [apply Replies_sendTextMessage; reflexivity | intros _].
    unfold sendOrderReceipt.
    apply (Replies_bind _ 0 1); [apply Replies_random | intros r].
    apply Replies_callSendAPI. reflexivity.
  - fewer ev 1%nat.
    apply Replies_sendTextMessage. reflexivity.
Qed.

Lemma Replies_dispatch (ev : MessagingEvent) :
  Replies (eq (sender_id ev)) 2 (dispatch SERVER_URL Math_random ev).
Proof.
  unfold dispatch.
  destruct (optin ev) as [o|] eqn:Ho.
  { fewer ev 1%nat.
    apply (Replies_receivedAuthentication ev o Ho). }
  destruct (message ev) as [m|] eqn:Hm.
  { fewer ev 1%nat.
    apply (Replies_receivedMessage ev m Hm). }
  destruct (postback ev) as [p|] eqn:Hp.
  { apply (Replies_receivedPostback ev p Hp). }
  fewer ev 0%nat; apply Replies_console_log.
Qed.

(** ** Decoded events *)

(** With its sender and its recipient an element of the array is handled
    as the event it is. *)
Lemma dispatch_decoded_present (ev : DecodedEvent) (s r : string) (w : World) :
  event_sender ev = Some {| party_id := s |} ->
  event_recipient ev = Some {| party_id := r |} ->
  dispatch_decoded SERVER_URL Math_random (Some ev) w
  = dispatch SERVER_URL Math_random (with_parties ev s r) w.
Proof.
  intros Hs Hr. unfold dispatch_decoded, dispatch, entering, property. rewrite Hs, Hr.
  cbn [with_parties optin message postback party_id].
  destruct (truthy (event_optin ev)); [reflexivity|].
  destruct (truthy (event_message ev)); [reflexivity|].
  destruct (truthy (event_postback ev)); reflexivity.
Qed.

(** On a callback in which nothing is missing, the route on the decoded
    body is the route on the body: what is shown of [post_webhook] and of
    [POST] holds of the requests that are complete. *)
Lemma forEach_map {A B : Type} (g : A -> B) (f : B -> M unit) (l : list A) (w : World) :
  forEach (map g l) f w = forEach l (fun a => f (g a)) w.
Proof.
  revert w. induction l as [|a l IH]; intros w; [reflexivity|].
  cbn [map forEach]. unfold bind. destruct (f (g a) w) as [[[]|e] w1]; [apply IH | reflexivity].
Qed.

Lemma forEach_ext {A : Type} (f g : A -> M unit) (l : list A) (w : World) :
  (forall a w0, f a w0 = g a w0) -> forEach l f w = forEach l g w.
Proof.
  intros Hfg. revert w. induction l as [|a l IH]; intros w; [reflexivity|].
  cbn [forEach]. unfold bind. rewrite Hfg.
  destruct (g a w) as [[[]|e] w1]; [apply IH | reflexivity].
Qed.

Lemma dispatch_decoded_complete (event : MessagingEvent) (w : World) :
  dispatch_decoded SERVER_URL Math_random (Some (decoded_event event)) w
  = dispatch SERVER_URL Math_random event w.
Proof.
  rewrite (dispatch_decoded_present (decoded_event event)
             (sender_id event) (recipient_id event) w eq_refl eq_refl).
  destruct event; reflexivity.
Qed.

Lemma post_webhook_decoded_complete (data : WebhookBody) (w : World) :
  post_webhook_decoded SERVER_URL Math_random (decoded_body data) w
  = post_webhook SERVER_URL Math_random data w.
Proof.
  unfold post_webhook_decoded, post_webhook. cbn [decoded_body body_object body_entry].
  destruct (loose_eq (object data) "page"); [|reflexivity].
  cbn [property]. unfold bind, ret.
  rewrite forEach_map.
  rewrite (forEach_ext _ (fun pageEntry =>
             forEach (messaging pageEntry) (dispatch SERVER_URL Math_random))); [reflexivity|].
  intros pageEntry w0. cbn [entry_decoded decoded_entry entry_messaging property].
  unfold bind, ret. rewrite forEach_map.
  apply forEach_ext. intros event w1. apply dispatch_decoded_complete.
Qed.

Lemma POST_decoded_complete (req : PostRequest) (w : World) :
  POST_decoded APP_SECRET SERVER_URL Math_random (decoded_request req) w
  = POST APP_SECRET SERVER_URL Math_random req w.
Proof.
  unfold POST_decoded, POST, bind. cbn [decoded_request header_signature request_raw request_body].
  destruct (verifyRequestSignature APP_SECRET (x_hub_signature req) (rawBody req) w)
    as [[[]|e] w1]; [apply post_webhook_decoded_complete | reflexivity].
Qed.

(** Of one of the three kinds and without sender or recipient, it makes the
    handler throw on its first lines. *)
Lemma dispatch_decoded_missing (ev : DecodedEvent) (w : World) :
  truthy (event_optin ev) || truthy (event_message ev) || truthy (event_postback ev) = true ->
  event_sender ev = None \/ event_recipient ev = None ->
  exists msg, dispatch_decoded SERVER_URL Math_random (Some ev) w = (Throw (TypeError msg), w).
Proof.
  intros Hkind Hmissing. unfold dispatch_decoded, entering, property.
  destruct (truthy (event_optin ev)); [|destruct (truthy (event_message ev));
    [|destruct (truthy (event_postback ev)); [|discriminate Hkind]]];
    (destruct (event_sender ev) as [[s]|]; [|eexists; reflexivity]);
    (destruct Hmissing as [Hm | Hm]; [discriminate Hm|]); rewrite Hm; eexists; reflexivity.
Qed.

Lemma Attempts_dispatch_decoded (item : option DecodedEvent) :
  Attempts (fun r => sender_of item = Some r) 2 (event_ok item)
    (dispatch_decoded SERVER_URL Math_random item).
Proof.
  destruct item as [ev|]; [|apply Attempts_throw].
  unfold event_ok, sender_of.
  destruct (truthy (event_optin ev) || truthy (event_message ev)
            || truthy (event_postback ev)) eqn:Hkind.
  - destruct (event_sender ev) as [[s]|] eqn:Hs;
      [destruct (event_recipient ev) as [[r]|] eqn:Hr|].
    + apply (Attempts_ext _ _ _ (dispatch SERVER_URL Math_random (with_parties ev s r)));
        [intros w; symmetry; apply (dispatch_decoded_present ev s r w Hs Hr)|].
      apply Attempts_of_Replies.
      apply (Replies_weaken (eq s) _ 2 2); [lia | intros r0 <-; reflexivity|].
      apply (Replies_dispatch (with_parties ev s r)).
    + intros w. destruct (dispatch_decoded_missing ev w Hkind (or_intror Hr)) as [msg E].
      exists (Throw (TypeError msg)), w, []. split; [exact E|].
      split; [symmetry; apply app_nil_r|]. split; [apply Nat.le_0_l|].
      split; [constructor|]. split; [reflexivity|]. exists msg. reflexivity.
    + intros w. destruct (dispatch_decoded_missing ev w Hkind (or_introl Hs)) as [msg E].
      exists (Throw (TypeError msg)), w, []. split; [exact E|].
      split; [symmetry; apply app_nil_r|]. split; [apply Nat.le_0_l|].
      split; [constructor|]. split; [reflexivity|]. exists msg. reflexivity.
  - apply orb_false_iff in Hkind. destruct Hkind as [Hkind Hp].
    apply orb_false_iff in Hkind. destruct Hkind as [Ho Hm].
    unfold dispatch_decoded. rewrite Ho, Hm, Hp.
    apply Attempts_of_Replies.
    apply (Replies_weaken (fun _ => False) _ 0 2); [lia | intros r0 [] |].
    apply Replies_console_log.
Qed.

(** X1. Handling one element of the array of events makes at most two calls
    of the Send API, addresses each of them to the sender of the event,
    keeps the calls made before and does not touch the HTTP response.  It
    returns exactly when the event is of none of the three kinds or has
    both its sender and its recipient; otherwise the handler throws a
    TypeError on its first lines, before any call. *)
Theorem every_reply_goes_to_the_sender (ev : DecodedEvent) (w : World) :
  exists r w' l,
    dispatch_decoded SERVER_URL Math_random (Some ev) w = (r, w') /\
    sent w' = (sent w ++ l)%list /\
    (List.length l <= 2)%nat /\
    Forall (fun m => event_sender ev = Some {| party_id := recipient m |}) l /\
    response w' = response w /\
    (r = Normal tt \/ (l = [] /\ exists msg, r = Throw (TypeError msg))) /\
    (r = Normal tt <->
     (event_optin ev = None /\ event_message ev = None /\ event_postback ev = None) \/
     (event_sender ev <> None /\ event_recipient ev <> None)).
Proof.
  assert (Hkinds : truthy (event_optin ev) || truthy (event_message ev)
                   || truthy (event_postback ev) = false
                   <-> event_optin ev = None /\ event_message ev = None
                       /\ event_postback ev = None).
  { destruct (event_optin ev), (event_message ev), (event_postback ev);
      cbv; split; try tauto; try discriminate;
      intros [H1 [H2 H3]]; discriminate. }
  destruct (truthy (event_optin ev) || truthy (event_message ev)
            || truthy (event_postback ev)) eqn:Hkind.
  - destruct (event_sender ev) as [[s]|] eqn:Hs;
      [destruct (event_recipient ev) as [[r]|] eqn:Hr|].
    + destruct (Replies_dispatch (with_parties ev s r) w) as [[] [w' [l [E [S [L [F R]]]]]]].
      exists (Normal tt), w', l.
      split; [rewrite (dispatch_decoded_present ev s r w Hs Hr); exact E|].
      split; [exact S|]. split; [exact L|]. split.
      * apply (Forall_impl _ (fun m (H : s = recipient m) =>
                                f_equal (fun x => Some {| party_id := x |}) H) F).
      * split; [exact R|]. split; [left; reflexivity|].
        split; [intros _; right; split; discriminate | reflexivity].
    + destruct (dispatch_decoded_missing ev w Hkind (or_intror Hr)) as [msg E].
      exists (Throw (TypeError msg)), w, []. split; [exact E|].
      split; [symmetry; apply app_nil_r|]. split; [apply Nat.le_0_l|].
      split; [constructor|]. split; [reflexivity|].
      split; [right; split; [reflexivity | exists msg; reflexivity]|].
      split; [intros H; discriminate H|].
      intros [H | [_ H]]; [apply Hkinds in H; discriminate H | exfalso; apply H; reflexivity].
    + destruct (dispatch_decoded_missing ev w Hkind (or_introl Hs)) as [msg E].
      exists (Throw (TypeError msg)), w, []. split; [exact E|].
      split; [symmetry; apply app_nil_r|]. split; [apply Nat.le_0_l|].
      split; [constructor|]. split; [reflexivity|].
      split; [right; split; [reflexivity | exists msg; reflexivity]|].
      split; [intros H; discriminate H|].
      intros [H | [H _]]; [apply Hkinds in H; discriminate H | exfalso; apply H; reflexivity].
  - pose proof (proj1 Hkinds eq_refl) as Hnone.
    apply orb_false_iff in Hkind. destruct Hkind as [Hkind Hp].
    apply orb_false_iff in Hkind. destruct Hkind as [Ho Hm].
    unfold dispatch_decoded. rewrite Ho, Hm, Hp.
    eexists (Normal tt), _, []. split; [reflexivity|].
    split; [symmetry; apply app_nil_r|]. split; [apply Nat.le_0_l|].
    split; [constructor|]. split; [reflexivity|]. split; [left; reflexivity|].
    split; [intros _; left; exact Hnone | reflexivity].
Qed.

(** ** Batches *)



(** The events of one element of [data.entry]. *)
Lemma events_of_entries (data : DecodedBody) (entries : list (option DecodedEntry))
    (e : DecodedEntry) (events : list (option DecodedEvent)) (item : option DecodedEvent) :
  body_entry data = Some entries ->
  In (Some e) entries ->
  entry_messaging e = Some events ->
  In item events ->
  In item (events_of data).
Proof.
  intros Hentries He Hevents Hitem. unfold events_of. rewrite Hentries.
  apply in_flat_map. exists (Some e). split; [exact He|]. rewrite Hevents. exact Hitem.
Qed.

Lemma list_sum_twos {A : Type} (l : list A) :
  list_sum (map (fun _ => 2%nat) l) = (2 * List.length l)%nat.
Proof. induction l as [|a l IH]; simpl; [reflexivity | rewrite IH; lia]. Qed.

Lemma list_sum_flat_map {A B : Type} (f : A -> list B) (l : list A) :
  list_sum (map (fun a => (2 * List.length (f a))%nat) l)
  = (2 * List.length (flat_map f l))%nat.
Proof.
  induction l as [|a l IH]; simpl; [reflexivity|].
  rewrite length_app. simpl in IH. lia.
Qed.

Lemma Attempts_entry_decoded (data : DecodedBody) (entries : list (option DecodedEntry))
    (item : option DecodedEntry) :
  body_entry data = Some entries ->
  In item entries ->
  Attempts (fun r => In (Some r) (map sender_of (events_of data)))
    (2 * List.length (match item with
                      | Some e => match entry_messaging e with
                                  | Some events => events
                                  | None => []
                                  end
                      | None => []
                      end))
    (entry_ok item)
    (entry_decoded SERVER_URL Math_random item).
Proof.
  intros Hentries Hitem. destruct item as [e|]; [|apply Attempts_throw].
  unfold entry_ok, entry_decoded, property.
  destruct (entry_messaging e) as [events|] eqn:Hevents.
  - apply (Attempts_ext _ _ _ (forEach events (dispatch_decoded SERVER_URL Math_random)));
      [intros w; reflexivity|].
    rewrite <- list_sum_twos.
    apply Attempts_forEach. intros ev Hev.
    apply (Attempts_weaken (fun r => sender_of ev = Some r) _ 2 2);
      [lia | | apply Attempts_dispatch_decoded].
    intros r <-. apply in_map.
    apply (events_of_entries data entries e events ev Hentries Hitem Hevents Hev).
  - apply (Attempts_ext _ _ _
             (throw (TypeError ("Cannot read property '" ++ "forEach" ++ "' of undefined"))));
      [intros w; reflexivity|].
    apply Attempts_throw.
Qed.

(** What the route does with a page body. *)
Lemma post_webhook_decoded_page (data : DecodedBody) (w : World) :
  body_object data = Some "page" ->
  exists r w' l,
    post_webhook_decoded SERVER_URL Math_random data w = (r, w') /\
    sent w' = (sent w ++ l)%list /\
    (List.length l <= 2 * List.length (events_of data))%nat /\
    Forall (fun m => In (Some (recipient m)) (map sender_of (events_of data))) l /\
    (if body_ok data
     then r = Normal tt /\
          response w' = Some {| status := 200; response_body := Some "OK" |}
     else (exists msg, r = Throw (TypeError msg)) /\ response w' = response w).
Proof.
  intros Hpage. unfold post_webhook_decoded, body_ok, property. rewrite Hpage.
  change (loose_eq (Some "page") "page") with true. cbv iota.
  destruct (body_entry data) as [entries|] eqn:Hentries.
  - destruct (Attempts_forEach (fun r => In (Some r) (map sender_of (events_of data)))
                entry_ok
                (fun item => (2 * List.length
                                (match item with
                                 | Some e => match entry_messaging e with
                                             | Some events => events
                                             | None => []
                                             end
                                 | None => []
                                 end))%nat)
                (entry_decoded SERVER_URL Math_random) entries
                (fun item Hitem => Attempts_entry_decoded data entries item Hentries Hitem) w)
      as [r [w1 [l [E [S [L [F [R G]]]]]]]].
    rewrite list_sum_flat_map in L.
    assert (Hcount : flat_map
                       (fun item : option DecodedEntry =>
                          match item with
                          | Some e => match entry_messaging e with
                                      | Some events => events
                                      | None => []
                                      end
                          | None => []
                          end) entries = events_of data)
      by (unfold events_of; rewrite Hentries; reflexivity).
    rewrite Hcount in L.
    unfold bind, ret. rewrite E.
    destruct (forallb entry_ok entries).
    + subst r. eexists (Normal tt), _, l. split; [reflexivity|].
      split; [exact S|]. split; [exact L|]. split; [exact F|]. split; reflexivity.
    + destruct G as [msg ->]. exists (Throw (TypeError msg)), w1, l.
      split; [reflexivity|]. split; [exact S|]. split; [exact L|]. split; [exact F|].
      split; [exists msg; reflexivity | exact R].
  - eexists (Throw (TypeError _)), w, []. split; [reflexivity|].
    split; [symmetry; apply app_nil_r|]. split; [apply Nat.le_0_l|].
    split; [constructor|]. split; [eexists; reflexivity | reflexivity].
Qed.

(** The route itself never throws the error of the signature. *)
Lemma post_webhook_decoded_throws (data : DecodedBody) (w w' : World) (e : Exn) :
  post_webhook_decoded SERVER_URL Math_random data w = (Throw e, w') ->
  exists msg, e = TypeError msg.
Proof.
  intros H. destruct (loose_eq (body_object data) "page") eqn:Hpage.
  - assert (Hobj : body_object data = Some "page").
    { unfold loose_eq in Hpage. destruct (body_object data) as [o|]; [|discriminate Hpage].
      apply String.eqb_eq in Hpage. rewrite Hpage. reflexivity. }
    destruct (post_webhook_decoded_page data w Hobj) as [r [w1 [l [E [_ [_ [_ G]]]]]]].
    rewrite E in H. injection H as -> _.
    destruct (body_ok data); destruct G as [G _]; [discriminate G|].
    destruct G as [msg G]. injection G as ->. exists msg. reflexivity.
  - unfold post_webhook_decoded in H. rewrite Hpage in H. discriminate H.
Qed.



(** ** The order of the tests *)

(** X4. An event that carries an optin is handled as an authentication,
    whatever message or postback it carries besides: the one reply is the
    text "Authentication successful". *)
Theorem optin_takes_precedence (ev : MessagingEvent) (o : Optin) (w : World) :
  optin ev = Some o ->
  dispatch SERVER_URL Math_random ev w =
    (Normal tt,
     {| sent := sent w ++ [{| recipient := sender_id ev;
                              message_body := text "Authentication successful" |}];
        console := console w
                   ++ [log "Received authentication for user %d and page %d with pass through param '%s' at %d"];
        response := response w;
        draws := draws w |}).
Proof.
  intros Ho. unfold dispatch. rewrite Ho.
  change (truthy (Some o)) with true. cbv iota.
  unfold receivedAuthentication. rewrite Ho. reflexivity.
Qed.

(** X5. A message that is not an echo and carries a quick reply is answered
    by the text "Quick reply tapped" alone, whatever its text says: the
    keywords are not looked at. *)
Theorem quick_reply_precedes_keywords
    (ev : MessagingEvent) (m : Message) (q : QuickReply) (w : World) :
  message ev = Some m ->
  is_echo m <> Some true ->
  quick_reply m = Some q ->
  receivedMessage SERVER_URL ev w =
    (Normal tt,
     {| sent := sent w ++ [{| recipient := sender_id ev;
                              message_body := text "Quick reply tapped" |}];
        console := console w
                   ++ [log "Received message for user %d and page %d at %d with message:";
                       log_json (Some m);
                       log "Quick reply for message %s with payload %s"];
        response := response w;
        draws := draws w |}).
Proof.
  intros Hm Hecho Hquick. unfold receivedMessage. rewrite Hm. cbv zeta.
  rewrite Hquick.
  destruct (is_echo m) as [[|]|]; [exfalso; apply Hecho; reflexivity | |];
    cbv [bind console_log console_log_json sendTextMessage callSendAPI truthy Truthy_option
         Truthy_bool Truthy_QuickReply sent console response draws];
    rewrite <- !app_assoc; reflexivity.
Qed.

Lemma app_one_more {A : Type} (l : list A) (x : A) (rest : list A) :
  (l ++ x :: rest)%list <> l.
Proof.
  intros E. rewrite <- (app_nil_r l) in E at 2. apply app_inv_head in E. discriminate E.
Qed.


(** ** Postbacks that are not orders *)

(** X7. A postback is answered by the one text "Sorry, we couldn't
    understand your message" exactly when its payload is not empty and
    starts neither with "restaurant" nor with "item". *)
Theorem postback_is_not_understood_iff
    (ev : MessagingEvent) (p : Postback) (w : World) :
  postback ev = Some p ->
  (sent (snd (receivedPostback SERVER_URL Math_random ev w))
   = (sent w ++ [{| recipient := sender_id ev;
                    message_body := text "Sorry, we couldn't understand your message" |}])%list
   <-> exists payload,
         postback_payload p = Some payload /\ payload <> "" /\
         Str.startsWith payload "restaurant" = false /\
         Str.startsWith payload "item" = false).
Proof.
  intros Hp. unfold receivedPostback. rewrite Hp. cbv zeta.
  destruct (postback_payload p) as [[|c rest]|].
  - split.
    + intros H. symmetry in H. exfalso. exact (app_one_more _ _ _ H).
    + intros [payload [E [Hne _]]]. injection E as <-. exfalso. apply Hne. reflexivity.
  - unfold Lodash.startsWith, Lodash.split.
    destruct (Str.startsWith (String c rest) "restaurant") eqn:Hr;
      [|destruct (Str.startsWith (String c rest) "item") eqn:Hi];
      cbv [bind console_log sendTextMessage sendRecommendationsForRestaurant sendOrderReceipt
           random callSendAPI truthy Truthy_string Str.nonempty
           snd sent console response draws].
    + split.
      * intros H. rewrite <- app_assoc in H. apply app_inv_head in H. discriminate H.
      * intros [payload [E [_ [Hr' _]]]]. injection E as <-. rewrite Hr in Hr'. discriminate Hr'.
    + split.
      * intros H. rewrite <- app_assoc in H. apply app_inv_head in H. discriminate H.
      * intros [payload [E [_ [_ Hi']]]]. injection E as <-. rewrite Hi in Hi'. discriminate Hi'.
    + split; [|reflexivity].
      intros _. exists (String c rest).
      split; [reflexivity|]. split; [discriminate|]. split; assumption.
  - split.
    + intros H. symmetry in H. exfalso. exact (app_one_more _ _ _ H).
    + intros [payload [E _]]. discriminate E.
Qed.


(** ** Keywords *)

Lemma toLowerCase_app (a b : string) :
  Str.toLowerCase (a ++ b) = Str.toLowerCase a ++ Str.toLowerCase b.
Proof.
  induction a as [|c a IH]; simpl; [reflexivity|]. rewrite IH. reflexivity.
Qed.

Lemma toLowerCase_empty (s : string) : Str.toLowerCase s = "" -> s = "".
Proof. destruct s; [reflexivity | discriminate]. Qed.

Lemma keywords_not_empty (word : string) : In word foodKeywords -> word <> "".
Proof.
  intros Hin ->. unfold foodKeywords in Hin. simpl in Hin.
  repeat (destruct Hin as [Hin | Hin]; [discriminate Hin|]). exact Hin.
Qed.

(** X9. The match on keywords ignores the case and the word boundaries: a
    text that contains a keyword anywhere, in any mix of upper and lower
    case, is answered by the carousel of the three restaurants. *)
Theorem keyword_in_any_case_anywhere
    (ev : MessagingEvent) (m : Message) (word variant before after : string) (w : World) :
  message ev = Some m ->
  is_echo m <> Some true ->
  quick_reply m = None ->
  In word ["hungry"; "food"; "meal"; "snack"; "cuisine"; "drink"; "chow";
           "breakfast"; "lunch"; "dinner"; "brunch"; "buffet"] ->
  Str.toLowerCase variant = word ->
  message_text m = Some (before ++ variant ++ after) ->
  exists reply w',
    receivedMessage SERVER_URL ev w = (Normal tt, w') /\
    sent w' = (sent w ++ [{| recipient := sender_id ev; message_body := reply |}])%list /\
    three_restaurants reply.
Proof.
  intros Hm Hecho Hquick Hin Hlower Htext.
  assert (Hne : before ++ variant ++ after <> "").
  { intros E. destruct before; [|discriminate E]. simpl in E.
    destruct variant; [|discriminate E].
    apply (keywords_not_empty word Hin). rewrite <- Hlower. reflexivity. }
  assert (Hsome : Lodash.some foodKeywords
                    (fun k => Lodash.includes (Lodash.toLower (before ++ variant ++ after)) k)
                  = true).
  { unfold Lodash.some, Lodash.includes, Lodash.toLower.
    apply StrFacts.existsb_includes. exists word. split; [exact Hin|].
    exists (Str.toLowerCase before), (Str.toLowerCase after).
    rewrite !toLowerCase_app, Hlower. reflexivity. }
  unfold receivedMessage. rewrite Hm. cbv zeta.
  rewrite (truthy_is_echo m Hecho), Hquick, Htext, (truthy_text _ Hne), Hsome.
  eexists. eexists. split; [reflexivity|]. split; [reflexivity|].
  eexists. split; reflexivity.
Qed.

(** ** The buttons the bot offers *)

Lemma mem_app (c : ascii) (a b : string) :
  Str.mem c (a ++ b) = Str.mem c a || Str.mem c b.
Proof.
  induction a as [|x a IH]; simpl; [reflexivity|]. rewrite IH. apply orb_assoc.
Qed.

(** X10. No button of the carousel of restaurants dangles: the payload of
    each of its postback buttons starts with "restaurant" and is a key of
    the table, under which three dishes are stored. *)
Theorem restaurant_buttons_resolve (recipientId : string) (w : World) :
  exists els,
    sendRestaurantRecommendation SERVER_URL recipientId w =
      (Normal tt,
       {| sent := sent w ++ [{| recipient := recipientId;
                                message_body := template (generic (Some els)) |}];
          console := console w; response := response w; draws := draws w |}) /\
    forall e t payload,
      In e els -> In (postback_button t payload) (buttons e) ->
      Str.startsWith payload "restaurant" = true /\
      exists a b c, lookup (recommendations SERVER_URL) payload = Some [a; b; c].
Proof.
  eexists. split; [reflexivity|].
  intros e t payload He Hb. simpl in He.
  destruct He as [<- | [<- | [<- | []]]]; simpl in Hb;
    destruct Hb as [Hb | [Hb | []]]; try discriminate Hb;
    injection Hb as _ <-; (split; [reflexivity|]); do 3 eexists; reflexivity.
Qed.

Lemma dish_round_trip (name cost asset : string) (ev : MessagingEvent) (p : Postback)
    (w : World) :
  Str.mem "|" SERVER_URL = false ->
  Str.mem "|" name = false ->
  Str.mem "|" cost = false ->
  Str.mem "|" asset = false ->
  postback ev = Some p ->
  postback_payload p = Some ("item|" ++ name ++ "|" ++ cost ++ "|" ++ SERVER_URL ++ asset) ->
  receivedPostback SERVER_URL Math_random ev w =
    (Normal tt,
     {| sent := sent w
                ++ [{| recipient := sender_id ev; message_body := text "We got your order!" |};
                    orderReceipt (sender_id ev) (Math_random (draws w))
                      (Some name) (Some cost) (Some (SERVER_URL ++ asset))];
        console := console w
                   ++ [log "Received postback for user %d and page %d with payload '%s' at %d"];
        response := response w;
        draws := S (draws w) |}).
Proof.
  intros Hurl Hname Hcost Hasset Hp Hpayload.
  rewrite (item_run SERVER_URL Math_random ev p _ w Hp Hpayload eq_refl).
  rewrite (split_item name cost (SERVER_URL ++ asset) Hname Hcost).
  - reflexivity.
  - rewrite mem_app, Hurl, Hasset. reflexivity.
Qed.

(** X11. Ordering works for every dish of the table, provided the server
    URL contains no bar: the payload of the button of a dish, sent back as
    a postback, is answered by the acknowledgement and by a receipt for
    that dish, with its title, its image and, as price and as subtotal,
    the price printed on its card. *)
Theorem offered_dish_is_ordered
    (key : string) (els : list Element) (e : Element) (t payload : string)
    (ev : MessagingEvent) (p : Postback) (w : World) :
  Str.mem "|" SERVER_URL = false ->
  lookup (recommendations SERVER_URL) key = Some els ->
  In e els ->
  In (postback_button t payload) (buttons e) ->
  postback ev = Some p ->
  postback_payload p = Some payload ->
  exists w' r el,
    receivedPostback SERVER_URL Math_random ev w = (Normal tt, w') /\
    sent w' =
      (sent w
       ++ [{| recipient := sender_id ev; message_body := text "We got your order!" |};
           {| recipient := sender_id ev; message_body := template (receipt r) |}])%list /\
    receipt_elements r = [el] /\
    receipt_title el = Some (title e) /\
    receipt_image_url el = Some (image_url e) /\
    Num.toString (price el) = subtitle e /\
    Num.toString (subtotal (summary r)) = subtitle e.
Proof.
  intros Hurl Hlookup He Hb Hp Hpayload.
  assert (Hdish : exists name cost asset,
             e = dish SERVER_URL name cost asset /\
             Str.mem "|" name = false /\ Str.mem "|" cost = false /\
             Str.mem "|" asset = false /\
             Num.toString (Lodash.round (Num.mul (Num.ofString cost) (Num.of_Z 1)) 2) = cost).
  { revert Hlookup. cbv [lookup recommendations].
    destruct (String.eqb "restaurant_campus_pizza" key);
      [|destruct (String.eqb "restaurant_foodie_fruitie" key);
        [|destruct (String.eqb "restaurant_williams" key); [|discriminate]]];
      intros Hels; injection Hels as <-;
      simpl in He; destruct He as [<- | [<- | [<- | []]]];
      do 3 eexists; (split; [reflexivity|]);
      repeat split; vm_compute; reflexivity. }
  destruct Hdish as [name [cost [asset [-> [Hname [Hcost [Hasset Hprint]]]]]]].
  simpl in Hb. destruct Hb as [Hb | []]. injection Hb as _ <-.
  do 3 eexists. split.
  - apply (dish_round_trip name cost asset ev p w Hurl Hname Hcost Hasset Hp Hpayload).
  - cbv [sent]. unfold orderReceipt. cbv zeta.
    split; [reflexivity|]. cbv [receipt_elements]. split; [reflexivity|].
    cbv [receipt_title receipt_image_url price summary subtotal dish title image_url subtitle
         Num.ToNumber].
    repeat split; exact Hprint.
Qed.

(** ** The shape of the digest *)

Lemma length_be_bytes (n : nat) (x : Z) : List.length (Crypto.be_bytes n x) = n.
Proof. induction n as [|n IH]; simpl; [reflexivity | rewrite IH; reflexivity]. Qed.

Lemma be_bytes_range (n : nat) (x b : Z) : In b (Crypto.be_bytes n x) -> 0 <= b < 256.
Proof.
  induction n as [|n IH]; simpl; [intros []|].
  intros [<- | H]; [|exact (IH H)].
  change 255 with (Z.ones 8). rewrite Z.land_ones by lia.
  apply Z.mod_pos_bound. reflexivity.
Qed.

Lemma sha1_shape (msg : list Z) :
  List.length (Crypto.sha1 msg) = 20%nat /\ forall b, In b (Crypto.sha1 msg) -> 0 <= b < 256.
Proof.
  unfold Crypto.sha1. cbv zeta.
  destruct (fold_left Crypto.compress _ Crypto.init) as [[[[h0 h1] h2] h3] h4].
  split.
  - rewrite !length_app, !length_be_bytes. reflexivity.
  - intros b Hb. rewrite !in_app_iff in Hb.
    destruct Hb as [H | [H | [H | [H | H]]]]; exact (be_bytes_range _ _ _ H).
Qed.

Lemma hex_digit_in (n : Z) : 0 <= n < 16 -> In (Crypto.hex_digit n) (Str.chars hex_digits).
Proof.
  intros H. rewrite <- (Z2Nat.id n) by lia.
  assert (Hk : (Z.to_nat n < 16)%nat) by lia.
  generalize dependent (Z.to_nat n). intros k Hk.
  do 16 (destruct k as [|k]; [vm_compute; tauto|]). lia.
Qed.

Lemma hex_shape (l : list Z) :
  (forall b, In b l -> 0 <= b < 256) ->
  String.length (Crypto.hex l) = (2 * List.length l)%nat /\
  forall c, In c (Str.chars (Crypto.hex l)) -> In c (Str.chars hex_digits).
Proof.
  induction l as [|b l IH]; intros Hl.
  - split; [reflexivity | intros c []].
  - destruct IH as [IHlen IHin]; [intros x Hx; apply Hl; right; exact Hx|].
    assert (Hb : 0 <= b < 256) by (apply Hl; left; reflexivity).
    split.
    + simpl String.length. rewrite IHlen. simpl. lia.
    + intros c Hc. change (Str.chars (Crypto.hex (b :: l)))
        with (Crypto.hex_digit (Z.shiftr b 4) :: Crypto.hex_digit (Z.land b 15)
              :: Str.chars (Crypto.hex l)) in Hc.
      destruct Hc as [<- | [<- | Hc]]; [| |exact (IHin c Hc)].
      * apply hex_digit_in. rewrite Z.shiftr_div_pow2 by lia.
        change (2 ^ 4) with 16. split; [apply Z.div_pos; lia|].
        apply Z.div_lt_upper_bound; lia.
      * apply hex_digit_in. change 15 with (Z.ones 4). rewrite Z.land_ones by lia.
        apply Z.mod_pos_bound. reflexivity.
Qed.

(** The digest is forty characters, each a digit or a letter from a to f. *)
Lemma digest_shape (key buf : string) :
  String.length (Crypto.createHmac_sha1_hex key buf) = 40%nat /\
  forall c, In c (Str.chars (Crypto.createHmac_sha1_hex key buf)) ->
            In c (Str.chars hex_digits).
Proof.
  unfold Crypto.createHmac_sha1_hex, Crypto.hmac_sha1. cbv zeta.
  destruct (sha1_shape
              (map (Z.lxor 92) (Crypto.block_key (Crypto.utf8 key))
               ++ Crypto.sha1 (map (Z.lxor 54) (Crypto.block_key (Crypto.utf8 key))
                               ++ Str.bytes buf))%list) as [Hlen Hrange].
  destruct (hex_shape _ Hrange) as [Hhexlen Hhex].
  split; [rewrite Hhexlen, Hlen; reflexivity | exact Hhex].
Qed.

Lemma mem_chars (c : ascii) (s : string) : Str.mem c s = false <-> ~ In c (Str.chars s).
Proof.
  induction s as [|a s IH]; simpl.
  - split; [intros _ [] | reflexivity].
  - rewrite orb_false_iff, IH. split.
    + intros [Hac Hs] [E | Hin]; [|exact (Hs Hin)].
      subst a. rewrite Ascii.eqb_refl in Hac. discriminate Hac.
    + intros H. split.
      * destruct (Ascii.eqb_spec a c) as [E|_]; [|reflexivity].
        exfalso. apply H. left. exact E.
      * intros Hin. apply H. right. exact Hin.
Qed.

Lemma digest_has_no_equals (key buf : string) :
  Str.mem "=" (Crypto.createHmac_sha1_hex key buf) = false.
Proof.
  apply mem_chars. intros Hin.
  apply (digest_shape key buf) in Hin. vm_compute in Hin.
  repeat (destruct Hin as [Hin | Hin]; [discriminate Hin|]). exact Hin.
Qed.

(** ** What the check of the signature lets through *)

(** X12. The check returns exactly in three cases: there is no header, the
    header is the empty string, or the piece of the header between its
    first and its second equals sign is the digest.  In the first two the
    body is never compared with anything. *)
Theorem verifier_accepts_iff (signature : option string) (buf : string) (w : World) :
  (exists w', verifyRequestSignature APP_SECRET signature buf w = (Normal tt, w'))
  <-> signature = None \/ signature = Some "" \/
      exists s, signature = Some s /\
                nth_error (Str.split "=" s) 1 = Some (Crypto.createHmac_sha1_hex APP_SECRET buf).
Proof.
  destruct signature as [s|].
  - destruct s as [|c s].
    + split; [intros _; right; left; reflexivity|]. intros _. eexists. reflexivity.
    + rewrite (verify_present APP_SECRET (String c s) buf w) by discriminate.
      unfold loose_neq, loose_eq.
      destruct (nth_error (Str.split "=" (String c s)) 1) as [h|] eqn:Hh.
      * destruct (String.eqb_spec h (Crypto.createHmac_sha1_hex APP_SECRET buf)) as [E | E];
          simpl negb; cbv iota.
        -- split; [|intros _; eexists; reflexivity].
           intros _. right. right. exists (String c s). split; [reflexivity|].
           rewrite Hh, E. reflexivity.
        -- split; [intros [w' H]; discriminate H|].
           intros [H | [H | [s' [Hs' Hnth]]]]; try discriminate H.
           injection Hs' as <-. rewrite Hh in Hnth. injection Hnth as Hnth.
           exfalso. apply E. exact Hnth.
      * simpl negb. cbv iota. split; [intros [w' H]; discriminate H|].
        intros [H | [H | [s' [Hs' Hnth]]]]; try discriminate H.
        injection Hs' as <-. rewrite Hh in Hnth. discriminate Hnth.
  - split; [intros _; left; reflexivity|]. intros _. eexists. reflexivity.
Qed.

(** X13. What follows a second equals sign in the header is not looked at:
    a header "method=digest=rest" is checked as "method=digest" is. *)
Theorem text_after_second_equals_is_ignored (method digest rest buf : string) (w : World) :
  Str.mem "=" method = false ->
  Str.mem "=" digest = false ->
  verifyRequestSignature APP_SECRET (Some (method ++ "=" ++ digest ++ "=" ++ rest)) buf w
  = verifyRequestSignature APP_SECRET (Some (method ++ "=" ++ digest)) buf w.
Proof.
  intros Hm Hd.
  rewrite (verify_present APP_SECRET (method ++ "=" ++ digest ++ "=" ++ rest) buf w)
    by (destruct method; discriminate).
  rewrite (verify_present APP_SECRET (method ++ "=" ++ digest) buf w)
    by (destruct method; discriminate).
  rewrite (split_header method digest Hm Hd).
  change (method ++ "=" ++ digest ++ "=" ++ rest)
    with (method ++ String "=" (digest ++ String "=" rest)).
  rewrite (StrFacts.split_app "=" method _ Hm), (StrFacts.split_app "=" digest _ Hd).
  reflexivity.
Qed.

(** X14. A header that is not empty and contains no equals sign is rejected
    for every body: there is no digest in it to compare. *)
Theorem header_without_equals_is_rejected (s buf : string) (data : WebhookBody) (w : World) :
  s <> "" ->
  Str.mem "=" s = false ->
  POST APP_SECRET SERVER_URL Math_random
    {| x_hub_signature := Some s; rawBody := buf; body := data |} w
  = (Throw (Error "Couldn't validate the request signature."), w).
Proof.
  intros Hne Hmem. unfold POST, bind. cbv [x_hub_signature rawBody].
  rewrite (verify_present APP_SECRET s buf w Hne).
  rewrite (StrFacts.split_without "=" s Hmem). reflexivity.
Qed.

(** X15. A header is rejected for every body and every secret when the
    piece that is compared with the digest, the one between its first and
    its second equals sign, is not forty characters long or contains a
    character that is not a digit or a letter from a to f; upper-case
    letters are such characters. *)
Theorem malformed_digest_is_rejected (s piece buf : string) (w : World) :
  s <> "" ->
  nth_error (Str.split "=" s) 1 = Some piece ->
  String.length piece <> 40%nat \/
  (exists c, In c (Str.chars piece) /\ ~ In c (Str.chars hex_digits)) ->
  verifyRequestSignature APP_SECRET (Some s) buf w
  = (Throw (Error "Couldn't validate the request signature."), w).
Proof.
  intros Hne Hpiece Hbad.
  rewrite (verify_present APP_SECRET s buf w Hne), Hpiece.
  unfold loose_neq, loose_eq.
  destruct (String.eqb_spec piece (Crypto.createHmac_sha1_hex APP_SECRET buf)) as [E | E];
    [|reflexivity].
  exfalso. destruct (digest_shape APP_SECRET buf) as [Hlen Hhex]. rewrite <- E in Hlen, Hhex.
  destruct Hbad as [Hbad | [c [Hin Hnot]]].
  - apply Hbad. exact Hlen.
  - apply Hnot. apply Hhex. exact Hin.
Qed.

Lemma verify_signed (buf : string) (w : World) :
  verifyRequestSignature APP_SECRET
    (Some ("sha1=" ++ Crypto.createHmac_sha1_hex APP_SECRET buf)) buf w
  = (Normal tt, w).
Proof.
  change ("sha1=" ++ Crypto.createHmac_sha1_hex APP_SECRET buf)
    with ("sha1" ++ "=" ++ Crypto.createHmac_sha1_hex APP_SECRET buf).
  rewrite (verify_present APP_SECRET _ buf w) by discriminate.
  rewrite (split_header "sha1" _ eq_refl (digest_has_no_equals APP_SECRET buf)).
  unfold loose_neq, loose_eq. simpl nth_error. cbv beta iota.
  rewrite String.eqb_refl. reflexivity.
Qed.

(** X16. A request signed with the digest of its raw body passes the check
    without a trace and is handled as the route handles its body.  When
    the object of the body is "page", the answer is 200 "OK" if the body
    can be handled, and a TypeError without a response if it cannot. *)
Theorem signed_request_reaches_the_route (req : DecodedRequest) (w : World) :
  header_signature req
    = Some ("sha1=" ++ Crypto.createHmac_sha1_hex APP_SECRET (request_raw req)) ->
  POST_decoded APP_SECRET SERVER_URL Math_random req w
    = post_webhook_decoded SERVER_URL Math_random (request_body req) w /\
  (body_object (request_body req) = Some "page" ->
   body_ok (request_body req) = true ->
   exists w', POST_decoded APP_SECRET SERVER_URL Math_random req w = (Normal tt, w') /\
              response w' = Some {| status := 200; response_body := Some "OK" |}) /\
  (body_object (request_body req) = Some "page" ->
   body_ok (request_body req) = false ->
   exists msg w',
     POST_decoded APP_SECRET SERVER_URL Math_random req w = (Throw (TypeError msg), w') /\
     response w' = response w).
Proof.
  intros Hsig.
  assert (Hpost : POST_decoded APP_SECRET SERVER_URL Math_random req w
                  = post_webhook_decoded SERVER_URL Math_random (request_body req) w).
  { unfold POST_decoded, bind. rewrite Hsig, verify_signed. reflexivity. }
  split; [exact Hpost|]. rewrite Hpost.
  split; intros Hpage Hok;
    destruct (post_webhook_decoded_page (request_body req) w Hpage)
      as [r [w' [l [E [_ [_ [_ G]]]]]]];
    rewrite Hok in G; rewrite E.
  - destruct G as [-> R]. exists w'. split; [reflexivity | exact R].
  - destruct G as [[msg ->] R]. exists msg, w'. split; [reflexivity | exact R].
Qed.

(** C7. A request without signature header is not rejected: the check
    writes "Couldn't validate the signature." to the console and returns,
    and the route runs on the body; if such a request fails, it is with a
    TypeError of the route, never with the error of the signature.  A
    request is aborted with the error of the signature exactly when its
    header is present, not empty, and its piece after the first equals sign
    is not the digest; nothing of such a request is processed. *)
Theorem missing_signature_only_logs (req : DecodedRequest) (w : World) :
  header_signature req = None ->
  let logged := {| sent := sent w;
                   console := console w ++ [error "Couldn't validate the signature."];
                   response := response w;
                   draws := draws w |} in
  verifyRequestSignature APP_SECRET (header_signature req) (request_raw req) w
    = (Normal tt, logged) /\
  POST_decoded APP_SECRET SERVER_URL Math_random req w
    = post_webhook_decoded SERVER_URL Math_random (request_body req) logged /\
  (forall e w',
     POST_decoded APP_SECRET SERVER_URL Math_random req w = (Throw e, w') ->
     exists msg, e = TypeError msg) /\
  (forall (other : DecodedRequest) (w0 : World),
     (exists w', POST_decoded APP_SECRET SERVER_URL Math_random other w0
                 = (Throw (Error "Couldn't validate the request signature."), w'))
     <-> exists s, header_signature other = Some s /\ s <> "" /\
                   nth_error (Str.split "=" s) 1
                     <> Some (Crypto.createHmac_sha1_hex APP_SECRET (request_raw other))) /\
  (forall (other : DecodedRequest) (w0 : World) (s : string),
     header_signature other = Some s -> s <> "" ->
     nth_error (Str.split "=" s) 1
       <> Some (Crypto.createHmac_sha1_hex APP_SECRET (request_raw other)) ->
     POST_decoded APP_SECRET SERVER_URL Math_random other w0
     = (Throw (Error "Couldn't validate the request signature."), w0)).
Proof.
  intros Hnone logged.
  assert (Hv : verifyRequestSignature APP_SECRET (header_signature req) (request_raw req) w
               = (Normal tt, logged)).
  { rewrite Hnone. apply verify_absent. reflexivity. }
  assert (Hpost : POST_decoded APP_SECRET SERVER_URL Math_random req w
                  = post_webhook_decoded SERVER_URL Math_random (request_body req) logged).
  { unfold POST_decoded, bind. rewrite Hv. reflexivity. }
  assert (Habort : forall (other : DecodedRequest) (w0 : World) (s : string),
             header_signature other = Some s -> s <> "" ->
             nth_error (Str.split "=" s) 1
               <> Some (Crypto.createHmac_sha1_hex APP_SECRET (request_raw other)) ->
             POST_decoded APP_SECRET SERVER_URL Math_random other w0
             = (Throw (Error "Couldn't validate the request signature."), w0)).
  { intros other w0 s Hs Hne Hmis. unfold POST_decoded, bind. rewrite Hs.
    rewrite (verify_present APP_SECRET s (request_raw other) w0 Hne).
    unfold loose_neq, loose_eq.
    destruct (nth_error (Str.split "=" s) 1) as [h|]; [|reflexivity].
    destruct (String.eqb_spec h (Crypto.createHmac_sha1_hex APP_SECRET (request_raw other)))
      as [E | E]; [|reflexivity].
    exfalso. apply Hmis. rewrite E. reflexivity. }
  split; [exact Hv|]. split; [exact Hpost|]. split; [|split; [|exact Habort]].
  - intros e w' Hthrow. rewrite Hpost in Hthrow.
    apply (post_webhook_decoded_throws _ _ _ _ Hthrow).
  - intros other w0. split.
    + intros [w' Hthrow]. unfold POST_decoded, bind in Hthrow.
      destruct (truthy (header_signature other)) eqn:Htruthy.
      * destruct (header_signature other) as [s|] eqn:Hsig; [|discriminate Htruthy].
        assert (Hs : s <> "") by (intros ->; discriminate Htruthy).
        exists s. split; [reflexivity|]. split; [exact Hs|].
        rewrite (verify_present APP_SECRET s (request_raw other) w0 Hs) in Hthrow.
        unfold loose_neq, loose_eq in Hthrow.
        destruct (nth_error (Str.split "=" s) 1) as [h|]; [|discriminate].
        cbv beta iota in Hthrow. revert Hthrow.
        destruct (String.eqb_spec h
                    (Crypto.createHmac_sha1_hex APP_SECRET (request_raw other)))
          as [E | E]; simpl negb; cbv iota; intros Hthrow.
        -- destruct (post_webhook_decoded_throws _ _ _ _ Hthrow) as [msg Hmsg].
           discriminate Hmsg.
        -- intros Heq. apply E. congruence.
      * rewrite (verify_absent APP_SECRET _ (request_raw other) w0 Htruthy) in Hthrow.
        destruct (post_webhook_decoded_throws _ _ _ _ Hthrow) as [msg Hmsg].
        discriminate Hmsg.
    + intros [s [Hs [Hne Hmis]]]. exists w0. apply (Habort other w0 s Hs Hne Hmis).
Qed.

(** ** The callback of callSendAPI *)

(** X17. When no response came back (the call of the Send API failed on
    the way), the callback throws a TypeError on reading the status code
    and writes nothing to the console, with or without an error object: the
    failure is not logged. *)
Theorem transport_error_is_not_logged
    (err : option Exn) (body : option SendResult) (w : World) :
  exists msg, callSendAPI_callback err None body w = (Throw (TypeError msg), w).
Proof. destruct err as [e|]; eexists; reflexivity. Qed.

(** X18. The callback never calls the Send API again and never touches the
    HTTP response, whatever came back.  When a response and a body came
    back it returns after writing one line to the console, which is the
    line of a failure exactly when there was an error or the status code
    is not 200. *)
Theorem callback_only_logs
    (err : option Exn) (answer : option SendResponse) (body : option SendResult)
    (w : World) :
  exists c w',
    callSendAPI_callback err answer body w = (c, w') /\
    sent w' = sent w /\ response w' = response w /\ draws w' = draws w /\
    forall r b,
      answer = Some r -> body = Some b ->
      c = Normal tt /\
      exists line,
        console w' = (console w ++ [line])%list /\
        (line = error "Failed calling Send API"
         <-> err <> None \/ statusCode r <> 200).
Proof.
  unfold callSendAPI_callback.
  destruct err as [e|]; destruct answer as [r|]; destruct body as [b|];
    cbv [truthy Truthy_option Truthy_Exn negb property bind ret throw];
    try (eexists; eexists; split; [reflexivity|];
         split; [reflexivity|]; split; [reflexivity|]; split; [reflexivity|];
         intros rr bb Hr Hb; discriminate).
  - eexists. eexists. split; [reflexivity|]. do 3 (split; [reflexivity|]).
    intros rr bb Hr Hb. injection Hr as <-. split; [reflexivity|].
    eexists. split; [reflexivity|]. split; [intros _; left; discriminate | reflexivity].
  - destruct (statusCode r =? 200) eqn:Hcode.
    + apply Z.eqb_eq in Hcode.
      destruct (result_message_id b) as [[|c0 id]|];
        (eexists; eexists; split; [reflexivity|]; do 3 (split; [reflexivity|]);
         intros rr bb Hr Hb; injection Hr as <-; split; [reflexivity|];
         eexists; split; [reflexivity|]; split;
         [intros H; discriminate H | intros [H | H]; exfalso; apply H; [reflexivity | exact Hcode]]).
    + apply Z.eqb_neq in Hcode.
      eexists. eexists. split; [reflexivity|]. do 3 (split; [reflexivity|]).
      intros rr bb Hr Hb. injection Hr as <-. split; [reflexivity|].
      eexists. split; [reflexivity|]. split; [intros _; right; exact Hcode | reflexivity].
  - destruct (statusCode r =? 200);
      (eexists; eexists; split; [reflexivity|]; do 3 (split; [reflexivity|]);
       intros rr bb Hr Hb; discriminate Hb).
Qed.

End Further.

(* ================================================================== *)
(** * The further properties on sample requests *)



Lemma optin_takes_precedence_witness :
  sent (snd (dispatch sample_url sample_random
               {| sender_id := "1254459154682919"; recipient_id := "682919125445915";
                  timestamp := 1458692752478;
                  optin := Some {| ref := Some "PASS_THROUGH_PARAM" |};
                  message := Some (sample_text "I am hungry");
                  postback := Some {| postback_payload := Some "restaurant_williams" |} |}
               World0))
  = [{| recipient := "1254459154682919";
        message_body := text "Authentication successful" |}].
Proof.
  rewrite (optin_takes_precedence sample_url sample_random
             {| sender_id := "1254459154682919"; recipient_id := "682919125445915";
                timestamp := 1458692752478;
                optin := Some {| ref := Some "PASS_THROUGH_PARAM" |};
                message := Some (sample_text "I am hungry");
                postback := Some {| postback_payload := Some "restaurant_williams" |} |}
             {| ref := Some "PASS_THROUGH_PARAM" |} World0 eq_refl).
  reflexivity.
Defined.

(** A quick reply whose text contains a keyword. *)
Lemma quick_reply_precedes_keywords_witness :
  sent (snd (receivedMessage sample_url
               (sample_event
                  (Some {| is_echo := None; mid := None; app_id := None; metadata := None;
                           message_text := Some "dinner";
                           attachments := None;
                           quick_reply := Some {| quick_reply_payload := "RATING_5" |} |})
                  None)
               World0))
  = [{| recipient := "1254459154682919"; message_body := text "Quick reply tapped" |}].
Proof.
  rewrite (quick_reply_precedes_keywords sample_url
             (sample_event
                (Some {| is_echo := None; mid := None; app_id := None; metadata := None;
                         message_text := Some "dinner";
                         attachments := None;
                         quick_reply := Some {| quick_reply_payload := "RATING_5" |} |})
                None)
             {| is_echo := None; mid := None; app_id := None; metadata := None;
                message_text := Some "dinner";
                attachments := None;
                quick_reply := Some {| quick_reply_payload := "RATING_5" |} |}
             {| quick_reply_payload := "RATING_5" |} World0 eq_refl);
    [reflexivity | discriminate | reflexivity].
Defined.


Lemma postback_is_not_understood_iff_witness :
  sent (snd (receivedPostback sample_url sample_random
               (sample_postback "DEVELOPER_DEFINED_PAYLOAD") World0))
  = [{| recipient := "1254459154682919";
        message_body := text "Sorry, we couldn't understand your message" |}].
Proof.
  apply (postback_is_not_understood_iff sample_url sample_random
           (sample_postback "DEVELOPER_DEFINED_PAYLOAD")
           {| postback_payload := Some "DEVELOPER_DEFINED_PAYLOAD" |} World0 eq_refl).
  exists "DEVELOPER_DEFINED_PAYLOAD".
  split; [reflexivity|]. split; [discriminate|]. split; reflexivity.
Defined.


Lemma keyword_in_any_case_anywhere_witness :
  exists reply w',
    receivedMessage sample_url (sample_event (Some (sample_text "BRUNCHtime")) None) World0
      = (Normal tt, w') /\
    sent w' = [{| recipient := "1254459154682919"; message_body := reply |}] /\
    three_restaurants reply.
Proof.
  apply (keyword_in_any_case_anywhere sample_url
           (sample_event (Some (sample_text "BRUNCHtime")) None)
           (sample_text "BRUNCHtime") "brunch" "BRUNCH" "" "time" World0);
    [ reflexivity | discriminate | reflexivity
    | simpl; tauto | reflexivity | reflexivity ].
Defined.

Lemma offered_dish_is_ordered_witness :
  exists w' r el,
    receivedPostback sample_url sample_random
      (sample_postback "item|Curry Ramen|9.99|https://bot.example/assets/curry_ramen.png")
      World0 = (Normal tt, w') /\
    sent w' = [{| recipient := "1254459154682919"; message_body := text "We got your order!" |};
               {| recipient := "1254459154682919"; message_body := template (receipt r) |}] /\
    receipt_elements r = [el] /\
    receipt_title el = Some "Curry Ramen" /\
    receipt_image_url el = Some "https://bot.example/assets/curry_ramen.png" /\
    Num.toString (price el) = "9.99" /\
    Num.toString (subtotal (summary r)) = "9.99".
Proof.
  apply (offered_dish_is_ordered sample_url sample_random
           "restaurant_foodie_fruitie"
           [dish sample_url "Teriyaki Salmon" "9.99" "/assets/teriyaki_salmon.png";
            dish sample_url "BBQ Pork Fried Rice" "9.99" "/assets/pork_fried_rice.png";
            dish sample_url "Curry Ramen" "9.99" "/assets/curry_ramen.png"]
           (dish sample_url "Curry Ramen" "9.99" "/assets/curry_ramen.png")
           "I want this!"
           "item|Curry Ramen|9.99|https://bot.example/assets/curry_ramen.png"
           (sample_postback "item|Curry Ramen|9.99|https://bot.example/assets/curry_ramen.png")
           {| postback_payload :=
                Some "item|Curry Ramen|9.99|https://bot.example/assets/curry_ramen.png" |}
           World0);
    [ reflexivity | reflexivity | simpl; tauto | simpl; tauto | reflexivity | reflexivity ].
Defined.

Lemma text_after_second_equals_is_ignored_witness :
  verifyRequestSignature "app-secret"
    (Some "sha1=18fe6cec23771c3dff7822497dccc1873528d436=anything") "{}" World0
  = verifyRequestSignature "app-secret"
      (Some "sha1=18fe6cec23771c3dff7822497dccc1873528d436") "{}" World0.
Proof.
  apply (text_after_second_equals_is_ignored "app-secret"
           "sha1" "18fe6cec23771c3dff7822497dccc1873528d436" "anything" "{}" World0);
    reflexivity.
Defined.

Lemma header_without_equals_is_rejected_witness :
  POST "app-secret" sample_url sample_random
    {| x_hub_signature := Some "18fe6cec23771c3dff7822497dccc1873528d436";
       rawBody := "{}";
       body := {| object := Some "page"; entry := [] |} |} World0
  = (Throw (Error "Couldn't validate the request signature."), World0).
Proof.
  apply (header_without_equals_is_rejected "app-secret" sample_url sample_random
           "18fe6cec23771c3dff7822497dccc1873528d436" "{}"
           {| object := Some "page"; entry := [] |} World0);
    [discriminate | reflexivity].
Defined.

Lemma malformed_digest_is_rejected_witness :
  verifyRequestSignature "app-secret" (Some "sha1=18FE6CEC23771C3DFF7822497DCCC1873528D436=x")
    "{}" World0
  = (Throw (Error "Couldn't validate the request signature."), World0).
Proof.
  apply (malformed_digest_is_rejected "app-secret"
           "sha1=18FE6CEC23771C3DFF7822497DCCC1873528D436=x"
           "18FE6CEC23771C3DFF7822497DCCC1873528D436" "{}" World0);
    [discriminate | reflexivity |].
  right. exists "F"%char. split; [vm_compute; tauto|].
  vm_compute. intros H. repeat (destruct H as [H | H]; [discriminate H|]). exact H.
Defined.

Lemma signed_request_reaches_the_route_witness :
  exists w',
    POST_decoded "app-secret" sample_url sample_random
      {| header_signature := Some "sha1=18fe6cec23771c3dff7822497dccc1873528d436";
         request_raw := "{}";
         request_body :=
           sample_page [Some (sample_decoded None
                                (Some {| postback_payload :=
                                           Some "restaurant_williams" |}))] |}
      World0 = (Normal tt, w') /\
    response w' = Some {| status := 200; response_body := Some "OK" |}.
Proof.
  destruct (signed_request_reaches_the_route "app-secret" sample_url sample_random
              {| header_signature := Some "sha1=18fe6cec23771c3dff7822497dccc1873528d436";
                 request_raw := "{}";
                 request_body :=
                   sample_page [Some (sample_decoded None
                                        (Some {| postback_payload :=
                                                   Some "restaurant_williams" |}))] |}
              World0) as [_ [Hpage _]].
  - vm_compute. reflexivity.
  - apply Hpage; reflexivity.
Defined.

(** A request without header is processed; one whose header carries another
    digest is aborted. *)
Lemma missing_signature_only_logs_witness :
  (exists w',
     POST_decoded "app-secret" sample_url sample_random
       {| header_signature := None;
          request_raw := "{}";
          request_body :=
            sample_page [Some (sample_decoded None
                                 (Some {| postback_payload :=
                                            Some "restaurant_williams" |}))] |}
       World0 = (Normal tt, w') /\
     console w' <> [] /\ List.length (sent w') = 2%nat) /\
  POST_decoded "app-secret" sample_url sample_random
    {| header_signature := Some "sha1=0000000000000000000000000000000000000000";
       request_raw := "{}";
       request_body :=
         sample_page [Some (sample_decoded None
                              (Some {| postback_payload :=
                                         Some "restaurant_williams" |}))] |}
    World0 = (Throw (Error "Couldn't validate the request signature."), World0).
Proof.
  destruct (missing_signature_only_logs "app-secret" sample_url sample_random
              {| header_signature := None;
                 request_raw := "{}";
                 request_body :=
                   sample_page [Some (sample_decoded None
                                        (Some {| postback_payload :=
                                                   Some "restaurant_williams" |}))] |}
              World0 eq_refl)
    as [_ [Hpost [_ [_ Habort]]]].
  split.
  - eexists. split.
    + rewrite Hpost. vm_compute. reflexivity.
    + split; [discriminate | reflexivity].
  - apply (Habort
             {| header_signature := Some "sha1=0000000000000000000000000000000000000000";
                request_raw := "{}";
                request_body :=
                  sample_page [Some (sample_decoded None
                                       (Some {| postback_payload :=
                                                  Some "restaurant_williams" |}))] |}
             World0 "sha1=0000000000000000000000000000000000000000");
      [reflexivity | discriminate | vm_compute; discriminate].
Defined.
